(** * Event-Planner: the venue loader and the venue filter of [app.py]

    The script reads [venues.csv] into a pandas table ([load_data]), turns
    its Capacity and Budget columns into integers, and then selects the rows
    that fit the choices made in the user interface ([filtered_venues]).

    Modelling choices, all taken from [app.py]:
    - Python text is a [string], the bytes of its UTF-8 encoding. The model
      is exact on ASCII text: the digits of [\d] and of [int()] are 0-9, the
      white space of [int()] is the ASCII white space of Python, and letter
      case is that of A-Z. A byte above 127 is never a digit, white space or
      a cased letter here.
    - A cell as [read_csv] delivers it is text, an integer, or missing (NaN).
      Floating-point columns are not modelled apart from NaN.  The columns
      the filters read as text hold text or NaN; a column without any text,
      to which pandas gives a numeric type, is outside the model.
    - Python exceptions are values: a computation is a [result], either
      [Ok v] or [Raise e], and the first exception ends the run.
    - The Capacity and Budget columns are int64 after [astype(int)]: a value
      outside the 64-bit range makes the conversion raise.  Python's limit
      on the length of a decimal literal is not modelled, nor is the
      rounding above 2^53 that occurs when pandas keeps the parsed
      capacities in a floating-point column next to a null.
    - The lookup of columns by name is not modelled: a row is a record
      with one field per column.  The trimming of the column names in
      line 17 is modelled on its own, on the list of names.
    - Of the page, the text and the table shown are modelled; the bytes
      that [to_csv] hands to the download buttons are not. *)

From Stdlib Require Import ZArith NArith String Ascii List Bool Lia.
From Stdlib Require Import DecimalString DecimalPos DecimalN DecimalZ.
From stdpp Require Import base list gmap.
Import ListNotations.

Local Open Scope Z_scope.

#[local] Arguments String.append !_ _ : simpl nomatch.

(* ================================================================== *)
(** * Part I: definitions *)
(* ================================================================== *)

(** ** Exceptions *)

Inductive exn := ValueError | OverflowError | TypeError.

Inductive result (A : Type) : Type :=
| Ok (a : A)
| Raise (e : exn).
Arguments Ok {A} a.
Arguments Raise {A} e.

#[global] Instance result_ret : MRet result := fun _ a => Ok a.

#[global] Instance result_bind : MBind result := fun _ _ k m =>
  match m with
  | Ok a => k a
  | Raise e => Raise e
  end.

(** Run [f] over a column, front to back; the first exception aborts. *)
Fixpoint mapM_result {A B} (f : A -> result B) (l : list A) : result (list B) :=
  match l with
  | [] => Ok []
  | a :: l' => b ← f a; bs ← mapM_result f l'; Ok (b :: bs)
  end.

(** ** Python text *)

Module PyStr.

Local Open Scope string_scope.

Definition code (c : ascii) : N := N_of_ascii c.

(** [\d] and the digits of [int()]. *)
Definition is_digit (c : ascii) : bool :=
  ((48 <=? code c) && (code c <=? 57))%N.

Definition digit_value (c : ascii) : N := (code c - 48)%N.

(** White space skipped by [int()]: TAB, LF, VT, FF, CR and space. *)
Definition is_space (c : ascii) : bool :=
  (((9 <=? code c) && (code c <=? 13)) || (code c =? 32))%N.

(** [str.lower] on one character. *)
Definition lower_char (c : ascii) : ascii :=
  if ((65 <=? code c) && (code c <=? 90))%N
  then ascii_of_N (code c + 32)
  else c.

(** [s.lower()] *)
Fixpoint lower (s : string) : string :=
  match s with
  | EmptyString => EmptyString
  | String c s' => String (lower_char c) (lower s')
  end.

(** [item in x] for two strings: [item] occurs in [x] as a substring. *)
Fixpoint str_in (item x : string) : bool :=
  String.prefix item x
  || match x with
     | EmptyString => false
     | String _ x' => str_in item x'
     end.

(** A literal pattern matched at the start of [s] under [re.IGNORECASE]. *)
Fixpoint prefix_nocase (p s : string) : bool :=
  match p, s with
  | EmptyString, _ => true
  | String _ _, EmptyString => false
  | String a p', String b s' =>
      Ascii.eqb (lower_char a) (lower_char b) && prefix_nocase p' s'
  end.

(** [re.search(p, s, re.IGNORECASE)] for a pattern [p] without
    metacharacters. *)
Fixpoint search_nocase (p s : string) : bool :=
  prefix_nocase p s
  || match s with
     | EmptyString => false
     | String _ s' => search_nocase p s'
     end.

(** [s.split(sep)] for a one-character separator. *)
Fixpoint split (sep : ascii) (s : string) : list string :=
  match s with
  | EmptyString => [EmptyString]
  | String c s' =>
      if Ascii.eqb c sep then EmptyString :: split sep s'
      else match split sep s' with
           | h :: t => String c h :: t
           | [] => [String c EmptyString]
           end
  end.

(** [s.split(sep)[-1]] *)
Definition last_segment (sep : ascii) (s : string) : string :=
  List.last (split sep s) EmptyString.

(** Replace every occurrence of the literal [pat] by the empty string,
    leftmost first and without overlap; [skip] counts the characters of
    the occurrence being dropped. *)
Fixpoint remove_from (pat : string) (skip : nat) (s : string) : string :=
  match s with
  | EmptyString => EmptyString
  | String c s' =>
      match skip with
      | S k => remove_from pat k s'
      | O =>
          match pat with
          | EmptyString => String c (remove_from pat O s')
          | String _ pat' =>
              if String.prefix pat s
              then remove_from pat (String.length pat') s'
              else String c (remove_from pat O s')
          end
      end
  end.

Definition remove_all (pat s : string) : string := remove_from pat O s.

Fixpoint lstrip (s : string) : string :=
  match s with
  | EmptyString => EmptyString
  | String c s' => if is_space c then lstrip s' else s
  end.

Fixpoint rstrip (s : string) : string :=
  match s with
  | EmptyString => EmptyString
  | String c s' =>
      match rstrip s' with
      | EmptyString => if is_space c then EmptyString else String c EmptyString
      | t => String c t
      end
  end.

Definition strip (s : string) : string := rstrip (lstrip s).

(** The digits of a decimal literal: one digit, then digits each of which
    may be preceded by one underscore.  [seen] is the value so far and
    [after_digit] tells whether the previous character was a digit. *)
Fixpoint int_digits (seen : N) (after_digit : bool) (s : string) : option N :=
  match s with
  | EmptyString => if after_digit then Some seen else None
  | String c s' =>
      if is_digit c then int_digits (10 * seen + digit_value c)%N true s'
      else if Ascii.eqb c "_" && after_digit then int_digits seen false s'
      else None
  end.

(** [int(s)] for text: white space around, an optional sign, digits. *)
Definition int_literal (s : string) : option Z :=
  match strip s with
  | String "+" d => option_map Z.of_N (int_digits 0 false d)
  | String "-" d => option_map (fun n => - Z.of_N n) (int_digits 0 false d)
  | d => option_map Z.of_N (int_digits 0 false d)
  end.

Definition py_int (s : string) : result Z :=
  match int_literal s with
  | Some z => Ok z
  | None => Raise ValueError
  end.

End PyStr.

(** ** Regular expressions, as far as the Capacity pattern needs them *)

Module Regex.

Inductive regex :=
| Void                        (* matches nothing *)
| Eps                         (* the empty string *)
| Digit                       (* \d *)
| Lit (c : ascii)             (* a literal character *)
| Cat (r1 r2 : regex)         (* r1 r2 *)
| Or (r1 r2 : regex)          (* r1 | r2 *)
| Star (r : regex).           (* r* *)

(** [r+] *)
Definition plus (r : regex) : regex := Cat r (Star r).

(** [(r)?] *)
Definition opt (r : regex) : regex := Or r Eps.

(** [$] as the last item of a pattern, without [re.MULTILINE]: the end of
    the text, or the position before a newline that ends the text. *)
Definition dollar : regex := opt (Lit "010").

Fixpoint nullable (r : regex) : bool :=
  match r with
  | Void => false
  | Eps => true
  | Digit => false
  | Lit _ => false
  | Cat r1 r2 => nullable r1 && nullable r2
  | Or r1 r2 => nullable r1 || nullable r2
  | Star _ => true
  end.

(** Brzozowski derivative of [r] by the character [c]. *)
Fixpoint deriv (c : ascii) (r : regex) : regex :=
  match r with
  | Void => Void
  | Eps => Void
  | Digit => if PyStr.is_digit c then Eps else Void
  | Lit d => if Ascii.eqb c d then Eps else Void
  | Cat r1 r2 =>
      if nullable r1
      then Or (Cat (deriv c r1) r2) (deriv c r2)
      else Cat (deriv c r1) r2
  | Or r1 r2 => Or (deriv c r1) (deriv c r2)
  | Star r1 => Cat (deriv c r1) (Star r1)
  end.

(** Does the whole of [s] match [r]? *)
Fixpoint full_match (r : regex) (s : string) : bool :=
  match s with
  | EmptyString => nullable r
  | String c s' => full_match (deriv c r) s'
  end.

(** The language of a pattern, for the correctness of [full_match]. *)
Inductive matches : regex -> string -> Prop :=
| MEps : matches Eps EmptyString
| MDigit c : PyStr.is_digit c = true -> matches Digit (String c EmptyString)
| MLit c : matches (Lit c) (String c EmptyString)
| MCat r1 r2 s1 s2 :
    matches r1 s1 -> matches r2 s2 -> matches (Cat r1 r2) (s1 ++ s2)%string
| MOrL r1 r2 s : matches r1 s -> matches (Or r1 r2) s
| MOrR r1 r2 s : matches r2 s -> matches (Or r1 r2) s
| MStar0 r : matches (Star r) EmptyString
| MStarS r s1 s2 :
    matches r s1 -> matches (Star r) s2 -> matches (Star r) (s1 ++ s2)%string.

(** The pattern of [parse_capacity]: [^\d+(-\d+)?$].  [re.match] anchors
    the match at the start of the text, and the [$] at the end of the
    pattern makes it run to the end of the text. *)
Definition capacity_re : regex :=
  Cat (plus Digit) (Cat (opt (Cat (Lit "-") (plus Digit))) dollar).

Definition re_match (r : regex) (s : string) : bool := full_match r s.

End Regex.

(** ** The table *)

(** A cell of the Capacity or Budget column as [read_csv] delivers it. *)
Inductive cell :=
| CStr (s : string)    (* text *)
| CInt (z : Z)         (* an integer *)
| CNaN.                (* missing *)

(** A cell of a text column: text, or missing (NaN) when [None]. *)
Definition text := option string.

(** A row of [venues.csv] as read. *)
Record raw_row := {
  raw_Venue_Name : text;
  raw_Location : text;
  raw_Capacity : cell;
  raw_Type : text;
  raw_Budget : cell;
  raw_Event_Type : text;
  raw_Available_Equipments : text
}.

(** A row of the table [load_data] returns. *)
Record venue := {
  Venue_Name : text;
  Location : text;
  Capacity : Z;
  Type_ : text;
  Budget : Z;
  Event_Type : text;
  Available_Equipments : text
}.

(** [pd.Series[mask]]: the rows whose flag is set, in their order. *)
Fixpoint boolean_index {A} (rows : list A) (mask : list bool) : list A :=
  match rows, mask with
  | r :: rows', b :: mask' =>
      if b then r :: boolean_index rows' mask' else boolean_index rows' mask'
  | _, _ => []
  end.

(** ** load_data *)

Module Loader.

Local Open Scope string_scope.

(** [int(x)] *)
Definition py_int (x : cell) : result Z :=
  match x with
  | CStr s => PyStr.py_int s
  | CInt z => Ok z
  | CNaN => Raise ValueError
  end.

(** [try: return int(cap)  except ValueError: return None] *)
Definition try_int (cap : cell) : result (option Z) :=
  match py_int cap with
  | Ok n => Ok (Some n)
  | Raise ValueError => Ok None
  | Raise e => Raise e
  end.

Definition parse_capacity (cap : cell) : result (option Z) :=
  match cap with
  | CStr s =>
      if Regex.re_match Regex.capacity_re s
      then n ← PyStr.py_int (PyStr.last_segment "-" s); Ok (Some n)
      else try_int cap
  | _ => try_int cap
  end.

Definition int64_min : Z := (- 2 ^ 63)%Z.
Definition int64_max : Z := (2 ^ 63 - 1)%Z.

Definition in_int64 (z : Z) : bool :=
  ((int64_min <=? z) && (z <=? int64_max))%Z.

(** Store a Python integer in an int64 column. *)
Definition to_int64 (z : Z) : result Z :=
  if in_int64 z then Ok z else Raise OverflowError.

(** [venues["Capacity"] = venues["Capacity"].apply(parse_capacity)]:
    each row with its new, possibly null, Capacity. *)
Definition apply_parse_capacity (venues : list raw_row)
  : result (list (raw_row * option Z)) :=
  mapM_result (fun r => c ← parse_capacity (raw_Capacity r); Ok (r, c)) venues.

(** [venues.dropna(subset=["Capacity"])] *)
Definition dropna (venues : list (raw_row * option Z)) : list (raw_row * Z) :=
  flat_map (fun rc => match snd rc with
                      | Some n => [(fst rc, n)]
                      | None => []
                      end) venues.

(** [venues["Capacity"] = venues["Capacity"].astype(int)] *)
Definition capacity_astype_int (venues : list (raw_row * Z))
  : result (list (raw_row * Z)) :=
  mapM_result (fun rc => n ← to_int64 (snd rc); Ok (fst rc, n)) venues.

(** [.replace({"₹": "", ",": ""}, regex=True)] on one cell: only text is
    rewritten. *)
Definition replace_budget (b : cell) : cell :=
  match b with
  | CStr s => CStr (PyStr.remove_all "," (PyStr.remove_all "₹" s))
  | _ => b
  end.

(** [.astype(int)] on one cell of the Budget column. *)
Definition budget_astype_int (b : cell) : result Z :=
  n ← py_int b; to_int64 n.

Definition parse_budget (b : cell) : result Z :=
  budget_astype_int (replace_budget b).

Definition mk_venue (r : raw_row) (capacity budget : Z) : venue :=
  {| Venue_Name := raw_Venue_Name r;
     Location := raw_Location r;
     Capacity := capacity;
     Type_ := raw_Type r;
     Budget := budget;
     Event_Type := raw_Event_Type r;
     Available_Equipments := raw_Available_Equipments r |}.

(** [venues["Budget"] = venues["Budget"].replace(...).astype(int)] *)
Definition convert_budget (venues : list (raw_row * Z)) : result (list venue) :=
  mapM_result (fun rc => b ← parse_budget (raw_Budget (fst rc));
                         Ok (mk_venue (fst rc) (snd rc) b)) venues.

(** [load_data()], as a function of the rows of [venues.csv]. *)
Definition load_data (csv : list raw_row) : result (list venue) :=
  venues ← apply_parse_capacity csv;
  venues ← capacity_astype_int (dropna venues);
  convert_budget venues.

End Loader.

(** ** filtered_venues *)

Module Filter.

Local Open Scope string_scope.

(** The options of the event-type select box. *)
Inductive event_choice :=
| Wedding | Corporate_Event | Birthday | Conference | Concert | Exhibition.

Definition event_label (e : event_choice) : string :=
  match e with
  | Wedding => "Wedding"
  | Corporate_Event => "Corporate Event"
  | Birthday => "Birthday"
  | Conference => "Conference"
  | Concert => "Concert"
  | Exhibition => "Exhibition"
  end.

(** The options of the venue-type radio button. *)
Inductive venue_choice := Indoor | Outdoor | Any.

Definition venue_label (v : venue_choice) : string :=
  match v with
  | Indoor => "Indoor"
  | Outdoor => "Outdoor"
  | Any => "Any"
  end.

Definition amenities_list : list string :=
  ["Mic"; "Projector"; "Sound System"; "Lighting"; "WiFi"; "Seating";
   "Catering"; "Valet Parking"].

(** The values of the widgets.  [selected_location] is ["Any"] or a value
    of the Location column, which may be the missing value. *)
Record criteria := {
  event_type : event_choice;
  selected_location : text;
  attendees : Z;
  budget : Z;
  venue_type : venue_choice;
  selected_amenities : list string
}.

(** [x != s] for a cell [x] and text [s]; NaN differs from every text. *)
Definition text_ne (x : text) (s : string) : bool :=
  match x with
  | Some t => negb (String.eqb t s)
  | None => true
  end.

(** [x == y] for two cells; NaN equals nothing. *)
Definition text_eq (x y : text) : bool :=
  match x, y with
  | Some s, Some t => String.eqb s t
  | _, _ => false
  end.

(** [.str.contains(pat, case=False, na=False)] on one cell, for a pattern
    without metacharacters. *)
Definition str_contains (pat : string) (x : text) : bool :=
  match x with
  | Some s => PyStr.search_nocase pat s
  | None => false
  end.

(** [.str.lower()] on one cell. *)
Definition str_lower (x : text) : text := option_map PyStr.lower x.

(** [item in x] *)
Definition py_in (item : string) (x : text) : result bool :=
  match x with
  | Some s => Ok (PyStr.str_in item s)
  | None => Raise TypeError
  end.

(** [all(item in x for item in items)], which stops at the first [False]. *)
Fixpoint all_in (items : list string) (x : text) : result bool :=
  match items with
  | [] => Ok true
  | item :: items' =>
      b ← py_in item x;
      if (b : bool) then all_in items' x else Ok false
  end.

(** The mask of lines 79-81. *)
Definition base_mask (c : criteria) (v : venue) : bool :=
  (attendees c <=? Capacity v)%Z
  && (Budget v <=? budget c)%Z
  && str_contains (event_label (event_type c)) (Event_Type v).

Definition type_mask (c : criteria) (v : venue) : bool :=
  text_eq (str_lower (Type_ v)) (Some (PyStr.lower (venue_label (venue_type c)))).

Definition location_mask (c : criteria) (v : venue) : bool :=
  text_eq (Location v) (selected_location c).

Definition filter_base (c : criteria) (venues : list venue) : list venue :=
  boolean_index venues (map (base_mask c) venues).

(** [venue_type != "Any"] *)
Definition type_wanted (c : criteria) : bool :=
  text_ne (Some (venue_label (venue_type c))) "Any".

(** [selected_location != "Any"] *)
Definition location_wanted (c : criteria) : bool :=
  text_ne (selected_location c) "Any".

Definition filter_type (c : criteria) (fv : list venue) : list venue :=
  if type_wanted c
  then boolean_index fv (map (type_mask c) fv)
  else fv.

Definition filter_location (c : criteria) (fv : list venue) : list venue :=
  if location_wanted c
  then boolean_index fv (map (location_mask c) fv)
  else fv.

Definition filter_amenities (c : criteria) (fv : list venue)
  : result (list venue) :=
  match selected_amenities c with
  | [] => Ok fv
  | _ :: _ =>
      mask ← mapM_result (fun v => all_in (selected_amenities c)
                                          (Available_Equipments v)) fv;
      Ok (boolean_index fv mask)
  end.

(** Lines 78-93: the value of [filtered_venues] after the last filter. *)
Definition filtered_venues (venues : list venue) (c : criteria)
  : result (list venue) :=
  filter_amenities c (filter_location c (filter_type c (filter_base c venues))).

End Filter.

(** ** The script as a sequence of assignments *)

(** The tables live in a heap; the variables [venues] and
    [filtered_venues] hold references into it.  Indexing a table with a
    mask builds a new table, and an assignment rebinds the variable.
    [st.cache_data] keeps the table [load_data] returned, and hands it out
    again on the next run. *)

Module Session.

Import Loader Filter.

Record state := {
  csv : list raw_row;                 (* the rows of venues.csv *)
  cache : option (list venue);        (* the entry of load_data in st.cache_data *)
  heap : gmap nat (list venue);       (* the tables *)
  venues : nat;                       (* the variable venues *)
  filtered_venues : nat               (* the variable filtered_venues *)
}.

(** The table a variable refers to. *)
Definition deref (st : state) (l : nat) : list venue :=
  default [] (heap st !! l).

(** [load_data()] under [@st.cache_data]: an exception is not cached. *)
Definition cached_load_data (st : state) : result (list venue) * state :=
  match cache st with
  | Some t => (Ok t, st)
  | None =>
      match load_data (csv st) with
      | Ok t => (Ok t, {| csv := csv st; cache := Some t; heap := heap st;
                          venues := venues st;
                          filtered_venues := filtered_venues st |})
      | Raise e => (Raise e, st)
      end
  end.

(** [venues = <a new table t>] *)
Definition assign_venues (t : list venue) (st : state) : state :=
  let l := fresh (dom (heap st)) in
  {| csv := csv st; cache := cache st; heap := <[l := t]> (heap st);
     venues := l; filtered_venues := filtered_venues st |}.

(** [filtered_venues = <a new table t>] *)
Definition assign_filtered (t : list venue) (st : state) : state :=
  let l := fresh (dom (heap st)) in
  {| csv := csv st; cache := cache st; heap := <[l := t]> (heap st);
     venues := venues st; filtered_venues := l |}.

(** Line 38. *)
Definition stmt_load (st : state) : result state :=
  let (r, st1) := cached_load_data st in
  t ← r; Ok (assign_venues t st1).

(** Lines 78-82. *)
Definition stmt_base (c : criteria) (st : state) : state :=
  assign_filtered (filter_base c (deref st (venues st))) st.

(** Lines 84-85. *)
Definition stmt_type (c : criteria) (st : state) : state :=
  if type_wanted c
  then let fv := deref st (filtered_venues st) in
       assign_filtered (boolean_index fv (map (type_mask c) fv)) st
  else st.

(** Lines 87-88. *)
Definition stmt_location (c : criteria) (st : state) : state :=
  if location_wanted c
  then let fv := deref st (filtered_venues st) in
       assign_filtered (boolean_index fv (map (location_mask c) fv)) st
  else st.

(** Lines 90-93. *)
Definition stmt_amenities (c : criteria) (st : state) : result state :=
  match selected_amenities c with
  | [] => Ok st
  | _ :: _ =>
      let fv := deref st (filtered_venues st) in
      mask ← mapM_result (fun v => all_in (selected_amenities c)
                                          (Available_Equipments v)) fv;
      Ok (assign_filtered (boolean_index fv mask) st)
  end.

(** Lines 78-93. *)
Definition run_filter (c : criteria) (st : state) : result state :=
  stmt_amenities c (stmt_location c (stmt_type c (stmt_base c st))).

(** One run of the script, as far as the table is concerned. *)
Definition run_script (c : criteria) (st : state) : result state :=
  st1 ← stmt_load st; run_filter c st1.

(** [st'] has every table of [st] as it was, and the same file and cache. *)
Definition preserves (st st' : state) : Prop :=
  csv st' = csv st
  /\ forall l, is_Some (heap st !! l) -> heap st' !! l = heap st !! l.

(** Where the script stands after some of the filter statements: the
    variable [venues] and the tables of [st0] are as in [st0], and
    [filtered_venues] refers to [fv]. *)
Definition at_stage (st0 st : state) (fv : list venue) : Prop :=
  venues st = venues st0
  /\ cache st = cache st0
  /\ preserves st0 st
  /\ deref st (filtered_venues st) = fv.

End Session.

(** ** Vocabulary of the statements *)

Module Spec.

Import Loader Filter.
Local Open Scope string_scope.

(** [item] occurs in [x]. *)
Definition substring (item x : string) : Prop :=
  exists pre post, x = pre ++ item ++ post.

(** Some part of [x] is [p] up to letter case. *)
Definition substring_nocase (p x : string) : Prop :=
  exists pre mid post, x = pre ++ mid ++ post /\ PyStr.lower mid = PyStr.lower p.

(** A non-negative integer in decimal: one digit or more. *)
Fixpoint all_digits (s : string) : bool :=
  match s with
  | EmptyString => true
  | String c s' => PyStr.is_digit c && all_digits s'
  end.

Definition is_number (s : string) : Prop :=
  s <> EmptyString /\ all_digits s = true.

Fixpoint decimal (seen : N) (s : string) : N :=
  match s with
  | EmptyString => seen
  | String c s' => decimal (10 * seen + PyStr.digit_value c)%N s'
  end.

(** The number a digit string denotes. *)
Definition number (s : string) : Z := Z.of_N (decimal 0 s).

Definition newline : string := String "010" EmptyString.

(** The texts [^\d+(-\d+)?$] accepts, each with the number it stands for:
    a number, or two numbers with a hyphen between, of which the second
    counts; after either there may be one newline. *)
Inductive capacity_text : string -> Z -> Prop :=
| CapOne a : is_number a -> capacity_text a (number a)
| CapTwo a b :
    is_number a -> is_number b -> capacity_text (a ++ "-" ++ b) (number b)
| CapOneNl a : is_number a -> capacity_text (a ++ newline) (number a)
| CapTwoNl a b :
    is_number a -> is_number b ->
    capacity_text (a ++ "-" ++ b ++ newline) (number b).

(** Does [load_data] keep the row?  It does when [parse_capacity] gives a
    number. *)
Definition kept (r : raw_row) : bool :=
  match parse_capacity (raw_Capacity r) with
  | Ok (Some _) => true
  | _ => false
  end.

(** [v] is the row [r] with its Capacity and Budget converted. *)
Definition normalizes (r : raw_row) (v : venue) : Prop :=
  parse_capacity (raw_Capacity r) = Ok (Some (Capacity v))
  /\ parse_budget (raw_Budget r) = Ok (Budget v)
  /\ v = mk_venue r (Capacity v) (Budget v).

(** The amenity test of one row as a truth value; a missing field fails
    it unless nothing is requested. *)
Definition amenity_mask (c : criteria) (v : venue) : bool :=
  match selected_amenities c, Available_Equipments v with
  | [], _ => true
  | _ :: _, None => false
  | items, Some x => forallb (fun item => PyStr.str_in item x) items
  end.

(** The filters of lines 78-88 on one row. *)
Definition before_amenities (c : criteria) (v : venue) : bool :=
  base_mask c v
  && (negb (type_wanted c) || type_mask c v)
  && (negb (location_wanted c) || location_mask c v).

(** All the filters of lines 78-93 on one row. *)
Definition selected (c : criteria) (v : venue) : bool :=
  before_amenities c v && amenity_mask c v.

Definition has_equipment (v : venue) : bool :=
  match Available_Equipments v with
  | Some _ => true
  | None => false
  end.

(** Can lines 90-93 be evaluated on [fv]?  They can when nothing is
    requested, and else when every row of [fv] holds text in Available
    Equipments, so that [item in x] raises on none. *)
Definition equipment_listed (c : criteria) (fv : list venue) : bool :=
  match selected_amenities c with
  | [] => true
  | _ :: _ => forallb has_equipment fv
  end.

(** The same for the whole of lines 78-93: the rows that matter are those
    that pass lines 78-88. *)
Definition amenities_defined (c : criteria) (venues : list venue) : bool :=
  equipment_listed c (List.filter (before_amenities c) venues).


(** The five conditions on Capacity, Budget, Event Type, Type and
    Location. *)
Definition five_conditions (c : criteria) (v : venue) : Prop :=
  (attendees c <= Capacity v)%Z
  /\ (Budget v <= budget c)%Z
  /\ (exists e, Event_Type v = Some e
                /\ substring_nocase (event_label (event_type c)) e)
  /\ (venue_type c <> Any ->
      exists t, Type_ v = Some t
                /\ PyStr.lower t = PyStr.lower (venue_label (venue_type c)))
  /\ (selected_location c <> Some "Any" ->
      exists l, selected_location c = Some l /\ Location v = Some l).

(** The condition on Available Equipments. *)
Definition amenity_condition (c : criteria) (v : venue) : Prop :=
  selected_amenities c <> [] ->
  exists x, Available_Equipments v = Some x
            /\ forall item, In item (selected_amenities c) -> substring item x.

End Spec.

(** ** Rows and choices used in the examples *)

Module Examples.

Import Loader Filter.
Local Open Scope string_scope.

(** A hall for 100 to 500 guests at 20,000 rupees. *)
Definition raw_hall : raw_row :=
  {| raw_Venue_Name := Some "Grand Hall";
     raw_Location := Some "City A";
     raw_Capacity := CStr "100-500";
     raw_Type := Some "Indoor";
     raw_Budget := CStr "₹20,000";
     raw_Event_Type := Some "Wedding";
     raw_Available_Equipments := Some "Mic,WiFi" |}.

Definition hall : venue := mk_venue raw_hall 500 20000.


(** A row in which neither number can be read. *)
Definition raw_unreadable : raw_row :=
  {| raw_Venue_Name := Some "Barn";
     raw_Location := Some "City B";
     raw_Capacity := CStr "abc";
     raw_Type := Some "Outdoor";
     raw_Budget := CStr "xyz";
     raw_Event_Type := Some "Concert";
     raw_Available_Equipments := Some "Lighting" |}.


(** A venue without an Event Type. *)
Definition untagged : venue :=
  {| Venue_Name := Some "Shed";
     Location := Some "City A";
     Capacity := 900;
     Type_ := Some "Indoor";
     Budget := 1000;
     Event_Type := None;
     Available_Equipments := Some "Mic" |}.

(** A wedding for 100 guests, indoors, anywhere, up to 25,000 rupees. *)
Definition wedding (items : list string) : criteria :=
  {| event_type := Wedding;
     selected_location := Some "Any";
     attendees := 100;
     budget := 25000;
     venue_type := Indoor;
     selected_amenities := items |}.

Definition session_start : Session.state :=
  {| Session.csv := [raw_hall];
     Session.cache := None;
     Session.heap := ∅;
     Session.venues := 0%nat;
     Session.filtered_venues := 0%nat |}.

End Examples.

(** ** More of Python text: [str()], [str.strip()], [str.join()] *)

Module PyText.

Local Open Scope string_scope.

(** [str(z)], also the [{z}] of an f-string: the decimal digits, with a
    minus sign in front of a negative number. *)
Definition str_of_int (z : Z) : string :=
  DecimalString.NilZero.string_of_int (Z.to_int z).

(** White space for [str.strip()]: TAB LF VT FF CR, FS GS RS US, space. *)
Definition is_space (c : ascii) : bool :=
  (((9 <=? PyStr.code c) && (PyStr.code c <=? 13))
   || ((28 <=? PyStr.code c) && (PyStr.code c <=? 31))
   || (PyStr.code c =? 32))%N.

Fixpoint lstrip (s : string) : string :=
  match s with
  | EmptyString => EmptyString
  | String c s' => if is_space c then lstrip s' else s
  end.

Fixpoint rstrip (s : string) : string :=
  match s with
  | EmptyString => EmptyString
  | String c s' =>
      match rstrip s' with
      | EmptyString => if is_space c then EmptyString else String c EmptyString
      | t => String c t
      end
  end.

(** [s.strip()] *)
Definition strip (s : string) : string := rstrip (lstrip s).

(** [sep.join(items)] *)
Fixpoint join (sep : string) (items : list string) : string :=
  match items with
  | [] => EmptyString
  | item :: rest =>
      match rest with
      | [] => item
      | _ :: _ => item ++ sep ++ join sep rest
      end
  end.

End PyText.

(** ** Line 17: the column names *)

Module Columns.


End Columns.

(** ** Lines 52-71: the widgets *)

Module Widgets.

Import Filter.
Local Open Scope string_scope.

(** The values a slider with integer [min_value], [max_value] and [step]
    can hand out. *)
Definition slider_value (min_value max_value step v : Z) : bool :=
  ((min_value <=? v) && (v <=? max_value)
   && ((v - min_value) mod step =? 0))%Z.

(** Line 61. *)
Definition attendees_slider (v : Z) : bool := slider_value 10 5000 10 v.

(** Line 64. *)
Definition budget_slider (v : Z) : bool := slider_value 5000 200000 5000 v.

Definition same_text (x y : text) : bool :=
  match x, y with
  | Some s, Some t => String.eqb s t
  | None, None => true
  | _, _ => false
  end.

(** [column.unique()]: the values in the order in which they first occur,
    each once; the missing value counts as one value.  [seen] holds the
    values met so far. *)
Fixpoint unique_from (seen : list text) (column : list text) : list text :=
  match column with
  | [] => []
  | x :: column' =>
      if existsb (same_text x) seen then unique_from seen column'
      else x :: unique_from (x :: seen) column'
  end.

Definition unique (column : list text) : list text := unique_from [] column.

(** Lines 57-58: the options of the location select box. *)
Definition location_options (venues : list venue) : list text :=
  Some "Any" :: unique (map Location venues).

(** What the widgets can hand to the filter for the table [venues]. *)
Definition widgets_ok (venues : list venue) (c : criteria) : Prop :=
  In (selected_location c) (location_options venues)
  /\ attendees_slider (attendees c) = true
  /\ budget_slider (budget c) = true
  /\ NoDup (selected_amenities c)
  /\ incl (selected_amenities c) amenities_list.

(** The criteria [c] with the attendees slider moved. *)
Definition with_attendees (c : criteria) (n : Z) : criteria :=
  {| event_type := event_type c;
     selected_location := selected_location c;
     attendees := n;
     budget := budget c;
     venue_type := venue_type c;
     selected_amenities := selected_amenities c |}.

(** The criteria [c] with the budget slider moved. *)
Definition with_budget (c : criteria) (n : Z) : criteria :=
  {| event_type := event_type c;
     selected_location := selected_location c;
     attendees := attendees c;
     budget := n;
     venue_type := venue_type c;
     selected_amenities := selected_amenities c |}.

End Widgets.

(** ** Lines 99-109: the list of recommended venues *)

Module Page.

Local Open Scope string_scope.

(** A row as displayed: the six columns of line 103. *)
Record shown_row := {
  shown_Venue_Name : text;
  shown_Location : text;
  shown_Capacity : Z;
  shown_Type : text;
  shown_Budget : Z;
  shown_Event_Type : text
}.

(** [filtered_venues[["Venue Name", "Location", "Capacity", "Type",
    "Budget", "Event Type"]]] on one row. *)
Definition show_columns (v : venue) : shown_row :=
  {| shown_Venue_Name := Venue_Name v;
     shown_Location := Location v;
     shown_Capacity := Capacity v;
     shown_Type := Type_ v;
     shown_Budget := Budget v;
     shown_Event_Type := Event_Type v |}.

(** What lines 101-109 put on the page: the success box with the table, or
    the warning.  The bytes handed to the download button are left out. *)
Inductive page :=
| Success (message : string) (table : list shown_row)
| Warning (message : string).

Definition render (filtered_venues : list venue) : page :=
  match filtered_venues with
  | [] => Warning "⚠️ No venues match your criteria. Try adjusting your filters."
  | _ :: _ =>
      Success ("✅ Found "
               ++ PyText.str_of_int (Z.of_nat (length filtered_venues))
               ++ " matching venues!")
              (map show_columns filtered_venues)
  end.

End Page.

(** ** Lines 112-120: the event plan *)

Module Plan.

Import Filter.
Local Open Scope string_scope.

(** Line 119. *)
Definition amenities_entry (items : list string) : string :=
  match items with
  | [] => "None"
  | _ :: _ => PyText.join ", " items
  end.

(** Line 117. *)
Definition budget_entry (budget : Z) : string :=
  "₹" ++ PyText.str_of_int budget.

(** The dictionary [event_summary], its keys in the order of the source.
    A value is text, an integer, or the missing value a location can be. *)
Definition event_summary (c : criteria) : list (string * cell) :=
  [("Event Type", CStr (event_label (event_type c)));
   ("Location", match selected_location c with
                | Some l => CStr l
                | None => CNaN
                end);
   ("Number of Attendees", CInt (attendees c));
   ("Budget", CStr (budget_entry (budget c)));
   ("Venue Type", CStr (venue_label (venue_type c)));
   ("Selected Amenities", CStr (amenities_entry (selected_amenities c)))].

(** [event_summary[key]] *)
Fixpoint getitem (d : list (string * cell)) (key : string) : option cell :=
  match d with
  | [] => None
  | (k, v) :: d' => if String.eqb k key then Some v else getitem d' key
  end.

End Plan.

(** ** The file behind the cache *)

Module Rerun.


End Rerun.

(** ** More rows and choices for the examples *)

Module MoreExamples.

Import Filter.
Local Open Scope string_scope.



End MoreExamples.

(* ================================================================== *)
(** * Part II: properties *)
(* ================================================================== *)

(** ** Exceptions and columns *)

Lemma bind_Ok {A B} (m : result A) (k : A -> result B) (b : B) :
  m ≫= k = Ok b -> exists a, m = Ok a /\ k a = Ok b.
Proof. destruct m as [a|e]; simpl; [eauto | discriminate]. Qed.

Lemma mapM_result_Ok_Forall2 {A B} (f : A -> result B) l bs :
  mapM_result f l = Ok bs -> Forall2 (fun a b => f a = Ok b) l bs.
Proof.
  revert bs. induction l as [|a l IH]; simpl; intros bs H.
  - inversion H. constructor.
  - apply bind_Ok in H as (b & Hb & H).
    apply bind_Ok in H as (bs' & Hbs & H).
    inversion H; subst. constructor; auto.
Qed.

Lemma mapM_result_pure {A B} (f : A -> result B) (g : A -> B) l :
  (forall a, In a l -> f a = Ok (g a)) -> mapM_result f l = Ok (map g l).
Proof.
  induction l as [|a l IH]; simpl; intros H; [reflexivity|].
  rewrite (H a) by auto. simpl. rewrite IH by auto. reflexivity.
Qed.

Lemma mapM_result_Raise {A B} (f : A -> result B) l a e :
  In a l -> f a = Raise e -> exists e', mapM_result f l = Raise e'.
Proof.
  induction l as [|x l IH]; simpl; [tauto|].
  intros [->|Hin] Hf.
  - rewrite Hf. simpl. eauto.
  - destruct (f x); simpl; [|eauto].
    destruct (IH Hin Hf) as [e' ->]. simpl. eauto.
Qed.

Lemma boolean_index_map {A} (f : A -> bool) (l : list A) :
  boolean_index l (map f l) = List.filter f l.
Proof.
  induction l as [|a l IH]; simpl; [reflexivity|].
  rewrite IH. reflexivity.
Qed.

Lemma filter_sublist_of {A} (f : A -> bool) (l : list A) :
  sublist (List.filter f l) l.
Proof.
  induction l as [|a l IH]; simpl; [constructor|].
  destruct (f a); [apply sublist_skip | apply sublist_cons]; exact IH.
Qed.

Lemma filter_filter_and {A} (f g : A -> bool) (l : list A) :
  List.filter g (List.filter f l) = List.filter (fun a => f a && g a) l.
Proof.
  induction l as [|a l IH]; simpl; [reflexivity|].
  destruct (f a); simpl; [destruct (g a)|]; rewrite IH; reflexivity.
Qed.

Lemma filter_ext_in_list {A} (f g : A -> bool) (l : list A) :
  (forall a, In a l -> f a = g a) -> List.filter f l = List.filter g l.
Proof.
  induction l as [|a l IH]; simpl; intros H; [reflexivity|].
  rewrite (H a) by auto. rewrite IH by auto. reflexivity.
Qed.

(** ** The pattern matcher *)

Module RegexFacts.

Import Regex.
Local Open Scope string_scope.

Lemma append_nil_r (s : string) : s ++ "" = s.
Proof. induction s; simpl; congruence. Qed.

Lemma append_assoc (a b c : string) : (a ++ b) ++ c = a ++ b ++ c.
Proof. induction a; simpl; congruence. Qed.

Lemma append_eq_nil (a b : string) : a ++ b = "" -> a = "" /\ b = "".
Proof. destruct a; simpl; [auto | discriminate]. Qed.

Lemma nullable_matches r : nullable r = true <-> matches r "".
Proof.
  induction r; simpl.
  - split; [discriminate | inversion 1].
  - split; [constructor | reflexivity].
  - split; [discriminate | inversion 1].
  - split; [discriminate | inversion 1].
  - rewrite andb_true_iff, IHr1, IHr2. split.
    + intros [H1 H2]. exact (MCat _ _ "" "" H1 H2).
    + inversion 1 as [| | |? ? s1 s2 H1 H2 E1 E2| | | |]; subst.
      apply append_eq_nil in E2 as [-> ->]. auto.
  - rewrite orb_true_iff, IHr1, IHr2. split.
    + intros [H|H]; [apply MOrL | apply MOrR]; exact H.
    + inversion 1; subst; auto.
  - split; [constructor | reflexivity].
Qed.

Lemma deriv_sound c r : forall s, matches (deriv c r) s -> matches r (String c s).
Proof.
  induction r; simpl; intros s H.
  - inversion H.
  - inversion H.
  - destruct (PyStr.is_digit c) eqn:E; inversion H; subst. constructor; exact E.
  - destruct (Ascii.eqb c c0) eqn:E; inversion H; subst.
    apply Ascii.eqb_eq in E as ->. constructor.
  - assert (Hcat : forall s, matches (Cat (deriv c r1) r2) s ->
                             matches (Cat r1 r2) (String c s)).
    { intros s0 H0. inversion H0 as [| | |? ? s1 s2 H1 H2 E1 E2| | | |]; subst.
      exact (MCat _ _ (String c s1) s2 (IHr1 _ H1) H2). }
    destruct (nullable r1) eqn:E; [|auto].
    inversion H as [| | | |? ? ? H1|? ? ? H2| |]; subst; [auto|].
    apply nullable_matches in E.
    exact (MCat _ _ "" (String c s) E (IHr2 _ H2)).
  - inversion H; subst; [apply MOrL | apply MOrR]; auto.
  - inversion H as [| | |? ? s1 s2 H1 H2 E1 E2| | | |]; subst.
    exact (MStarS _ (String c s1) s2 (IHr _ H1) H2).
Qed.

Lemma deriv_complete c r s0 :
  matches r s0 -> forall s, s0 = String c s -> matches (deriv c r) s.
Proof.
  induction 1 as [|d Hd|d|r1 r2 s1 s2 H1 IH1 H2 IH2|r1 r2 s1 H1 IH1
                  |r1 r2 s1 H1 IH1|r1|r1 s1 s2 H1 IH1 H2 IH2];
    intros s E; simpl.
  - discriminate.
  - inversion E; subst. rewrite Hd. constructor.
  - inversion E; subst. rewrite Ascii.eqb_refl. constructor.
  - destruct s1 as [|a s1']; simpl in E.
    + apply nullable_matches in H1 as ->. apply MOrR. auto.
    + inversion E; subst.
      pose proof (MCat _ _ _ _ (IH1 _ eq_refl) H2) as Hc.
      destruct (nullable r1); [apply MOrL|]; exact Hc.
  - apply MOrL. auto.
  - apply MOrR. auto.
  - discriminate.
  - destruct s1 as [|a s1']; simpl in E.
    + apply IH2 in E. exact E.
    + inversion E; subst. exact (MCat _ _ _ _ (IH1 _ eq_refl) H2).
Qed.

(** The matcher decides the language of the pattern. *)
Lemma full_match_matches s : forall r, full_match r s = true <-> matches r s.
Proof.
  induction s as [|c s IH]; intros r; simpl.
  - apply nullable_matches.
  - rewrite IH. split; [apply deriv_sound|].
    intros H. exact (deriv_complete c r _ H s eq_refl).
Qed.

End RegexFacts.

(** ** Python text *)

Module PyStrFacts.

Import PyStr Spec RegexFacts.
Local Open Scope string_scope.

Lemma prefix_iff (p s : string) :
  String.prefix p s = true <-> exists post, s = p ++ post.
Proof.
  revert s. induction p as [|a p IH]; intros s.
  - destruct s; simpl; split; eauto.
  - destruct s as [|b s]; simpl.
    + split; [discriminate | intros [post H]; discriminate].
    + destruct (Ascii.ascii_dec a b) as [->|Hne].
      * rewrite IH. split; intros [post H]; exists post; congruence.
      * split; [discriminate | intros [post H]; congruence].
Qed.

Lemma str_in_nil item : str_in item "" = String.prefix item "".
Proof. simpl. apply orb_false_r. Qed.

Lemma str_in_cons item c x :
  str_in item (String c x) = String.prefix item (String c x) || str_in item x.
Proof. reflexivity. Qed.

(** [item in x] on text is the substring test. *)
Lemma str_in_iff (item x : string) : str_in item x = true <-> substring item x.
Proof.
  unfold substring. induction x as [|c x IH].
  - rewrite str_in_nil, prefix_iff. split.
    + intros [post H]. exists "", post. exact H.
    + intros (pre & post & H). symmetry in H.
      apply append_eq_nil in H as [_ H]. exists post. symmetry. exact H.
  - rewrite str_in_cons, orb_true_iff, IH, prefix_iff. split.
    + intros [[post H]|(pre & post & H)].
      * exists "", post. exact H.
      * exists (String c pre), post. simpl. congruence.
    + intros ([|a pre] & post & H); simpl in H.
      * left. eauto.
      * right. exists pre, post. congruence.
Qed.

Lemma prefix_nocase_iff (p s : string) :
  prefix_nocase p s = true <->
  exists mid post, s = mid ++ post /\ lower mid = lower p.
Proof.
  revert s. induction p as [|a p IH]; intros s.
  - destruct s; simpl; (split; [intros _; exists "" ; eauto | reflexivity]).
  - destruct s as [|b s]; simpl.
    + split; [discriminate|]. intros (mid & post & H & Hl). symmetry in H.
      apply append_eq_nil in H as [-> _]. discriminate.
    + rewrite andb_true_iff, IH, Ascii.eqb_eq. split.
      * intros (Hab & mid & post & -> & Hl).
        exists (String b mid), post. simpl. split; congruence.
      * intros ([|b' mid] & post & H & Hl); simpl in H, Hl; [discriminate|].
        inversion H; subst. inversion Hl. split; [congruence|eauto].
Qed.

Lemma search_nocase_nil p : search_nocase p "" = prefix_nocase p "".
Proof. simpl. apply orb_false_r. Qed.

Lemma search_nocase_cons p c x :
  search_nocase p (String c x) = prefix_nocase p (String c x) || search_nocase p x.
Proof. reflexivity. Qed.

(** The search without regard to case finds a part equal up to case. *)
Lemma search_nocase_iff (p x : string) :
  search_nocase p x = true <-> substring_nocase p x.
Proof.
  unfold substring_nocase. induction x as [|c x IH].
  - rewrite search_nocase_nil, prefix_nocase_iff. split.
    + intros (mid & post & H & Hl). exists "", mid, post. auto.
    + intros (pre & mid & post & H & Hl). symmetry in H.
      apply append_eq_nil in H as [_ H]. exists mid, post. auto.
  - rewrite search_nocase_cons, orb_true_iff, IH, prefix_nocase_iff. split.
    + intros [(mid & post & H & Hl)|(pre & mid & post & H & Hl)].
      * exists "", mid, post. auto.
      * exists (String c pre), mid, post. simpl. split; congruence.
    + intros ([|a pre] & mid & post & H & Hl); simpl in H.
      * left. eauto.
      * right. exists pre, mid, post. split; congruence.
Qed.

(** *** Splitting at a separator *)

Lemma split_nonempty sep s : split sep s <> [].
Proof.
  destruct s as [|c s]; simpl; [discriminate|].
  destruct (Ascii.eqb c sep); [discriminate|].
  destruct (split sep s); discriminate.
Qed.

Lemma split_app_sep sep (a b : string) :
  split sep (a ++ String sep b) = (split sep a ++ split sep b)%list.
Proof.
  induction a as [|c a IH]; simpl.
  - rewrite Ascii.eqb_refl. reflexivity.
  - destruct (Ascii.eqb c sep); [rewrite IH; reflexivity|].
    rewrite IH. pose proof (split_nonempty sep a).
    destruct (split sep a); [contradiction | reflexivity].
Qed.

Lemma last_app_nonempty {A} (l1 l2 : list A) d :
  l2 <> [] -> List.last (l1 ++ l2) d = List.last l2 d.
Proof.
  intros H. induction l1 as [|x l1 IH]; [reflexivity|].
  simpl. rewrite IH. destruct (l1 ++ l2)%list eqn:E; [|reflexivity].
  apply app_eq_nil in E as [_ E]. contradiction.
Qed.

(** The last segment of [a-b] is the last segment of [b]. *)
Lemma last_segment_app_sep sep (a b : string) :
  last_segment sep (a ++ String sep b) = last_segment sep b.
Proof.
  unfold last_segment. rewrite split_app_sep.
  apply last_app_nonempty, split_nonempty.
Qed.

Lemma digit_not_hyphen c : is_digit c = true -> Ascii.eqb c "-" = false.
Proof.
  intros H. destruct (Ascii.eqb c "-") eqn:E; [|reflexivity].
  apply Ascii.eqb_eq in E. subst. discriminate.
Qed.

Lemma split_digits (b tail : string) :
  all_digits b = true -> split "-" tail = [tail] ->
  split "-" (b ++ tail) = [b ++ tail].
Proof.
  intros Hb Ht. induction b as [|c b IH]; simpl in *; [exact Ht|].
  apply andb_true_iff in Hb as [Hc Hb].
  rewrite (digit_not_hyphen c Hc), (IH Hb). reflexivity.
Qed.

Lemma last_segment_digits (b tail : string) :
  all_digits b = true -> split "-" tail = [tail] ->
  last_segment "-" (b ++ tail) = b ++ tail.
Proof.
  intros Hb Ht. unfold last_segment. rewrite split_digits by assumption.
  reflexivity.
Qed.

(** *** [int()] on digits *)

Lemma digit_not_space c : is_digit c = true -> is_space c = false.
Proof.
  unfold is_digit, is_space. generalize (code c). intros n H.
  apply andb_true_iff in H as [H1 H2].
  apply N.leb_le in H1. apply N.leb_le in H2.
  apply orb_false_iff. split.
  - apply andb_false_iff. right. apply N.leb_gt. lia.
  - apply N.eqb_neq. lia.
Qed.

Lemma rstrip_digits (b : string) : all_digits b = true -> rstrip b = b.
Proof.
  induction b as [|c b IH]; simpl; [reflexivity|]. intros H.
  apply andb_true_iff in H as [Hc Hb]. rewrite (IH Hb).
  destruct b; [|reflexivity]. rewrite (digit_not_space c Hc). reflexivity.
Qed.

Lemma rstrip_digits_newline (b : string) :
  all_digits b = true -> rstrip (b ++ newline) = b.
Proof.
  induction b as [|c b IH]; simpl; [reflexivity|]. intros H.
  apply andb_true_iff in H as [Hc Hb]. rewrite (IH Hb).
  destruct b; [|reflexivity]. rewrite (digit_not_space c Hc). reflexivity.
Qed.

Lemma lstrip_digits (b tail : string) :
  is_number b -> lstrip (b ++ tail) = b ++ tail.
Proof.
  intros [Hne Hb]. destruct b as [|c b]; [contradiction|]. simpl in *.
  apply andb_true_iff in Hb as [Hc _]. rewrite (digit_not_space c Hc).
  reflexivity.
Qed.

Lemma strip_number (b : string) : is_number b -> strip b = b.
Proof.
  intros H. unfold strip. rewrite <- (append_nil_r b) at 1.
  rewrite (lstrip_digits b "" H), append_nil_r.
  apply rstrip_digits, H.
Qed.

Lemma strip_number_newline (b : string) :
  is_number b -> strip (b ++ newline) = b.
Proof.
  intros H. unfold strip. rewrite (lstrip_digits b newline H).
  apply rstrip_digits_newline, H.
Qed.

Lemma int_digits_all_digits (b : string) : forall seen,
  all_digits b = true -> int_digits seen true b = Some (decimal seen b).
Proof.
  induction b as [|c b IH]; simpl; intros seen H; [reflexivity|].
  apply andb_true_iff in H as [Hc Hb]. rewrite Hc. apply IH, Hb.
Qed.

Lemma int_digits_number (b : string) :
  is_number b -> int_digits 0 false b = Some (decimal 0 b).
Proof.
  intros [Hne Hb]. destruct b as [|c b]; [contradiction|]. simpl in *.
  apply andb_true_iff in Hb as [Hc Hb]. rewrite Hc.
  apply int_digits_all_digits, Hb.
Qed.

(** A text that starts with a digit carries no sign. *)
Lemma int_literal_unsigned c (b : string) :
  is_digit c = true ->
  strip (String c b) = String c b ->
  int_literal (String c b) = option_map Z.of_N (int_digits 0 false (String c b)).
Proof.
  intros Hc Hs. unfold int_literal. rewrite Hs.
  destruct c as [[] [] [] [] [] [] [] []]; try discriminate Hc; reflexivity.
Qed.

Lemma int_literal_number (b : string) :
  is_number b -> int_literal b = Some (number b).
Proof.
  intros H. pose proof (strip_number b H) as Hs.
  pose proof (int_digits_number b H) as Hd.
  destruct H as [Hne Hb]. destruct b as [|c b]; [contradiction|].
  simpl in Hb. apply andb_true_iff in Hb as [Hc _].
  rewrite (int_literal_unsigned c b Hc Hs), Hd. reflexivity.
Qed.

Lemma int_literal_number_newline (b : string) :
  is_number b -> int_literal (b ++ newline) = Some (number b).
Proof.
  intros H. pose proof (strip_number_newline b H) as Hs.
  pose proof (int_digits_number b H) as Hd.
  unfold int_literal. rewrite Hs.
  destruct H as [Hne Hb]. destruct b as [|c b]; [contradiction|].
  simpl in Hb. apply andb_true_iff in Hb as [Hc _].
  transitivity (option_map Z.of_N (int_digits 0 false (String c b))).
  - destruct c as [[] [] [] [] [] [] [] []]; try discriminate Hc; reflexivity.
  - rewrite Hd. reflexivity.
Qed.

End PyStrFacts.

(** ** parse_capacity *)

Module CapacityFacts.

Import Regex PyStr Spec Loader RegexFacts PyStrFacts.
Local Open Scope string_scope.

Lemma matches_star_digit_all r s :
  matches r s -> r = Star Digit -> all_digits s = true.
Proof.
  induction 1 as [| | | | | | |r0 s1 s2 H1 _ H2 IH2]; intros E;
    try discriminate E; [reflexivity|].
  injection E as ->. inversion H1 as [|c Hc| | | | | |]; subst.
  simpl. rewrite Hc. auto.
Qed.

Lemma matches_star_digit s : matches (Star Digit) s <-> all_digits s = true.
Proof.
  split; [intros H; exact (matches_star_digit_all _ _ H eq_refl)|].
  induction s as [|c s IH]; simpl; intros H; [constructor|].
  apply andb_true_iff in H as [Hc Hs].
  exact (MStarS Digit (String c "") s (MDigit c Hc) (IH Hs)).
Qed.

Lemma matches_plus_digit s : matches (plus Digit) s <-> is_number s.
Proof.
  unfold plus, is_number. split.
  - inversion 1 as [| | |? ? s1 s2 H1 H2 E1 E2| | | |]; subst.
    inversion H1 as [|c Hc| | | | | |]; subst.
    apply matches_star_digit in H2. simpl. rewrite Hc, H2.
    split; [discriminate | reflexivity].
  - intros [Hne H]. destruct s as [|c s]; [contradiction|].
    simpl in H. apply andb_true_iff in H as [Hc Hs].
    apply (MCat Digit (Star Digit) (String c "") s (MDigit c Hc)).
    apply matches_star_digit, Hs.
Qed.

Lemma matches_dollar s : matches dollar s <-> s = "" \/ s = newline.
Proof.
  unfold dollar, opt. split.
  - inversion 1 as [| | | |? ? ? H1|? ? ? H1| |]; subst;
      inversion H1; subst; auto.
  - intros [->| ->]; [apply MOrR; constructor | apply MOrL; constructor].
Qed.

(** What the pattern of [parse_capacity] accepts. *)
Lemma matches_capacity_re s :
  matches capacity_re s <-> exists n, capacity_text s n.
Proof.
  unfold capacity_re. split.
  - inversion 1 as [| | |? ? a rest Ha Hrest E1 E2| | | |]; subst.
    apply matches_plus_digit in Ha.
    inversion Hrest as [| | |? ? o d Ho Hd E1 E2| | | |]; subst.
    apply matches_dollar in Hd.
    inversion Ho as [| | | |? ? ? Hb|? ? ? Hb| |]; subst.
    + inversion Hb as [| | |? ? h b Hh Hb' E1 E2| | | |]; subst.
      inversion Hh; subst. apply matches_plus_digit in Hb'.
      exists (number b). destruct Hd as [-> | ->].
      * rewrite append_nil_r. apply CapTwo; assumption.
      * rewrite append_assoc. apply CapTwoNl; assumption.
    + inversion Hb; subst. exists (number a). destruct Hd as [-> | ->]; simpl.
      * rewrite append_nil_r. apply CapOne; assumption.
      * apply CapOneNl; assumption.
  - assert (Hnum : forall a, is_number a -> matches (plus Digit) a)
      by (intros; apply matches_plus_digit; assumption).
    assert (Hend : matches dollar "") by (apply matches_dollar; auto).
    assert (Hnl : matches dollar newline) by (apply matches_dollar; auto).
    assert (Hno : matches (opt (Cat (Lit "-") (plus Digit))) "")
      by (apply MOrR; constructor).
    assert (Hyes : forall b, is_number b ->
              matches (opt (Cat (Lit "-") (plus Digit))) ("-" ++ b))
      by (intros b Hb; apply MOrL; apply (MCat _ _ "-" b); auto; constructor).
    intros [n [a Ha|a b Ha Hb|a Ha|a b Ha Hb]].
    + rewrite <- (append_nil_r a).
      exact (MCat _ _ a "" (Hnum a Ha) (MCat _ _ "" "" Hno Hend)).
    + replace (a ++ "-" ++ b) with (a ++ ("-" ++ b) ++ "")
        by (rewrite append_nil_r; reflexivity).
      exact (MCat _ _ a _ (Hnum a Ha) (MCat _ _ _ "" (Hyes b Hb) Hend)).
    + exact (MCat _ _ a _ (Hnum a Ha) (MCat _ _ "" newline Hno Hnl)).
    + replace (a ++ "-" ++ b ++ newline) with (a ++ ("-" ++ b) ++ newline)
        by (rewrite append_assoc; reflexivity).
      exact (MCat _ _ a _ (Hnum a Ha) (MCat _ _ _ newline (Hyes b Hb) Hnl)).
Qed.

Lemma re_match_capacity_re s :
  re_match capacity_re s = true <-> exists n, capacity_text s n.
Proof.
  unfold re_match. rewrite full_match_matches. apply matches_capacity_re.
Qed.

Lemma split_newline : split "-" newline = [newline].
Proof. reflexivity. Qed.

Lemma split_nil : split "-" "" = [""].
Proof. reflexivity. Qed.

Lemma py_int_number b : is_number b -> PyStr.py_int b = Ok (number b).
Proof. intros H. unfold PyStr.py_int. rewrite int_literal_number; auto. Qed.

Lemma py_int_number_newline b :
  is_number b -> PyStr.py_int (b ++ newline) = Ok (number b).
Proof.
  intros H. unfold PyStr.py_int. rewrite int_literal_number_newline; auto.
Qed.

Lemma last_segment_number a : is_number a -> last_segment "-" a = a.
Proof.
  intros [_ H]. rewrite <- (append_nil_r a) at 1.
  rewrite (last_segment_digits a "" H split_nil). apply append_nil_r.
Qed.

Lemma last_segment_number_newline a :
  is_number a -> last_segment "-" (a ++ newline) = a ++ newline.
Proof. intros [_ H]. exact (last_segment_digits a newline H split_newline). Qed.

Lemma parse_capacity_matching s n :
  capacity_text s n ->
  parse_capacity (CStr s) = (n ← PyStr.py_int (last_segment "-" s); Ok (Some n)).
Proof.
  intros H. assert (E : re_match capacity_re s = true)
    by (apply re_match_capacity_re; eauto).
  unfold parse_capacity. rewrite E. reflexivity.
Qed.

(** On a text that fits the pattern, [parse_capacity] returns the number
    the text stands for. *)
Lemma parse_capacity_capacity_text s n :
  capacity_text s n -> parse_capacity (CStr s) = Ok (Some n).
Proof.
  intros H. rewrite (parse_capacity_matching s n H).
  destruct H as [a Ha|a b Ha Hb|a Ha|a b Ha Hb].
  - rewrite (last_segment_number a Ha), (py_int_number a Ha). reflexivity.
  - change (a ++ "-" ++ b) with (a ++ String "-" b).
    rewrite last_segment_app_sep, (last_segment_number b Hb),
      (py_int_number b Hb).
    reflexivity.
  - rewrite (last_segment_number_newline a Ha), (py_int_number_newline a Ha).
    reflexivity.
  - change (a ++ "-" ++ b ++ newline) with (a ++ String "-" (b ++ newline)).
    rewrite last_segment_app_sep, (last_segment_number_newline b Hb),
      (py_int_number_newline b Hb).
    reflexivity.
Qed.

(** A text that does not fit the pattern, and any cell that is not text,
    goes through [int()] under the [try]. *)
Lemma parse_capacity_otherwise cap :
  (forall s n, cap = CStr s -> ~ capacity_text s n) ->
  parse_capacity cap = try_int cap.
Proof.
  intros H. destruct cap as [s| |]; try reflexivity.
  unfold parse_capacity. destruct (re_match capacity_re s) eqn:E; [|reflexivity].
  apply re_match_capacity_re in E as [n E]. destruct (H s n eq_refl E).
Qed.

Lemma py_int_raises_ValueError cap e : py_int cap = Raise e -> e = ValueError.
Proof.
  destruct cap as [s|z|]; simpl; [|discriminate|congruence].
  unfold PyStr.py_int. destruct (int_literal s); [discriminate|congruence].
Qed.

Lemma try_int_Ok cap :
  try_int cap = match py_int cap with Ok n => Ok (Some n) | Raise _ => Ok None end.
Proof.
  unfold try_int. destruct (py_int cap) as [n|e] eqn:E; [reflexivity|].
  rewrite (py_int_raises_ValueError cap e E). reflexivity.
Qed.

(** No exception leaves [parse_capacity]. *)
Lemma parse_capacity_total cap : exists o, parse_capacity cap = Ok o.
Proof.
  assert (Htry : exists o, try_int cap = Ok o)
    by (rewrite try_int_Ok; destruct (py_int cap); eauto).
  destruct cap as [s| |]; try exact Htry.
  destruct (re_match capacity_re s) eqn:E.
  - apply re_match_capacity_re in E as [n E].
    rewrite (parse_capacity_capacity_text s n E). eauto.
  - unfold parse_capacity. rewrite E. exact Htry.
Qed.

End CapacityFacts.

(** ** load_data *)

Module LoaderFacts.

Import PyStr Spec Loader CapacityFacts.

Lemma mapM_result_total {A B} (f : A -> result B) l :
  (forall a, In a l -> exists b, f a = Ok b) -> exists bs, mapM_result f l = Ok bs.
Proof.
  induction l as [|a l IH]; simpl; intros H; [eauto|].
  destruct (H a) as [b ->]; [auto|].
  destruct IH as [bs ->]; [auto|]. simpl. eauto.
Qed.

Lemma to_int64_Ok z n : to_int64 z = Ok n -> n = z /\ in_int64 z = true.
Proof.
  unfold to_int64. destruct (in_int64 z); [|discriminate].
  intros H. inversion H. auto.
Qed.

Lemma parse_budget_in_int64 b n : parse_budget b = Ok n -> in_int64 n = true.
Proof.
  unfold parse_budget, budget_astype_int. intros H.
  apply bind_Ok in H as (z & _ & H). apply to_int64_Ok in H as [-> H]. exact H.
Qed.

(** After [apply] and [dropna]: the rows whose Capacity parsed, each with
    the number parsed. *)
Lemma dropna_apply_parse_capacity csv : forall l,
  apply_parse_capacity csv = Ok l ->
  Forall2 (fun r rn => fst rn = r
                       /\ parse_capacity (raw_Capacity r) = Ok (Some (snd rn)))
          (List.filter kept csv) (dropna l).
Proof.
  unfold apply_parse_capacity.
  induction csv as [|r csv IH]; simpl; intros l H.
  - inversion H. constructor.
  - apply bind_Ok in H as (rc & Hrc & H).
    apply bind_Ok in H as (l' & Hl' & H). inversion H; subst; clear H.
    apply bind_Ok in Hrc as (c & Hc & Hrc). inversion Hrc; subst; clear Hrc.
    unfold kept at 1. rewrite Hc. unfold dropna. simpl.
    destruct c as [n|]; simpl; [constructor; auto|]; apply IH; exact Hl'.
Qed.

Lemma capacity_astype_int_Ok l l' :
  capacity_astype_int l = Ok l' ->
  l' = l /\ Forall (fun rn => in_int64 (snd rn) = true) l.
Proof.
  unfold capacity_astype_int. revert l'.
  induction l as [|[r n] l IH]; simpl; intros l' H.
  - inversion H. auto.
  - apply bind_Ok in H as (rc & Hrc & H).
    apply bind_Ok in H as (l'' & Hl'' & H). inversion H; subst; clear H.
    apply bind_Ok in Hrc as (m & Hm & Hrc). inversion Hrc; subst; clear Hrc.
    apply to_int64_Ok in Hm as [-> Hm]. destruct (IH _ Hl'') as [-> Hall].
    split; [reflexivity | constructor; assumption].
Qed.

Lemma convert_budget_Ok l t :
  convert_budget l = Ok t ->
  Forall2 (fun rn v => parse_budget (raw_Budget (fst rn)) = Ok (Budget v)
                       /\ v = mk_venue (fst rn) (snd rn) (Budget v)) l t.
Proof.
  unfold convert_budget. intros H. apply mapM_result_Ok_Forall2 in H.
  eapply Forall2_impl; [exact H|]. simpl. intros rn v Hv.
  apply bind_Ok in Hv as (b & Hb & Hv). inversion Hv; subst. auto.
Qed.

(** The table [load_data] returns: the rows whose Capacity parsed, in
    their order, each with both numbers converted and within 64 bits. *)
Lemma load_data_rows csv t :
  load_data csv = Ok t ->
  Forall2 normalizes (List.filter kept csv) t
  /\ Forall (fun v => in_int64 (Capacity v) = true
                      /\ in_int64 (Budget v) = true) t.
Proof.
  unfold load_data. intros H.
  apply bind_Ok in H as (l1 & H1 & H).
  apply bind_Ok in H as (l2 & H2 & H3).
  apply dropna_apply_parse_capacity in H1.
  apply capacity_astype_int_Ok in H2 as [-> H2].
  apply convert_budget_Ok in H3.
  revert H1 H2 t H3. generalize (dropna l1) (List.filter kept csv).
  intros l. induction l as [|rn l IH]; intros rows H1 H2 t H3.
  - inversion H1; subst. inversion H3; subst. split; constructor.
  - inversion H1 as [|r ? rows' ? [Hr Hc] H1']; subst.
    inversion H3 as [|? v ? t' [Hb Hv] H3']; subst.
    inversion H2 as [|? ? Hn H2']; subst.
    destruct (IH _ H1' H2' _ H3') as [IHa IHb].
    pose proof (f_equal Capacity Hv) as HC. simpl in HC.
    split; constructor; auto.
    + unfold normalizes. rewrite HC. auto.
    + rewrite HC. split; [exact Hn | exact (parse_budget_in_int64 _ _ Hb)].
Qed.

Lemma Forall2_In_r {A B} (P : A -> B -> Prop) l1 l2 :
  Forall2 P l1 l2 -> forall b, In b l2 -> exists a, In a l1 /\ P a b.
Proof.
  induction 1 as [|a b l1 l2 HP _ IH]; simpl; [tauto|].
  intros b' [<-|Hin]; [eauto|].
  destruct (IH b' Hin) as (a' & Ha' & HP'). eauto.
Qed.


(** [load_data] returns a table when every row it keeps has a Capacity
    within 64 bits and a Budget that converts. *)
Lemma load_data_total csv :
  (forall r, In r csv -> kept r = true ->
             (exists n, parse_capacity (raw_Capacity r) = Ok (Some n)
                        /\ in_int64 n = true)
             /\ exists b, parse_budget (raw_Budget r) = Ok b) ->
  exists t, load_data csv = Ok t.
Proof.
  intros H. unfold load_data.
  destruct (mapM_result_total
              (fun r => c ← parse_capacity (raw_Capacity r); Ok (r, c)) csv)
    as [l1 H1].
  { intros r _. destruct (parse_capacity_total (raw_Capacity r)) as [o ->].
    simpl. eauto. }
  unfold apply_parse_capacity at 1. rewrite H1. simpl.
  pose proof (dropna_apply_parse_capacity csv l1 H1) as HF.
  assert (Hin : forall rn, In rn (dropna l1) ->
            in_int64 (snd rn) = true
            /\ exists b, parse_budget (raw_Budget (fst rn)) = Ok b).
  { intros rn Hrn.
    destruct (Forall2_In_r _ _ _ HF rn Hrn) as (r & Hr & <- & Hc).
    apply filter_In in Hr as [Hr Hk].
    destruct (H _ Hr Hk) as [(n & Hn & Hrange) Hb].
    rewrite Hn in Hc. inversion Hc; subst. auto. }
  assert (H2 : capacity_astype_int (dropna l1) = Ok (dropna l1)).
  { unfold capacity_astype_int.
    rewrite (mapM_result_pure _ (fun rn => rn)); [rewrite map_id; reflexivity|].
    intros [r n] Hrn. destruct (Hin _ Hrn) as [Hrange _]. simpl in *.
    unfold to_int64. rewrite Hrange. reflexivity. }
  rewrite H2. simpl. unfold convert_budget. apply mapM_result_total.
  intros rn Hrn. destruct (Hin _ Hrn) as [_ [b ->]]. simpl. eauto.
Qed.

End LoaderFacts.

(** ** filtered_venues *)

Module FilterFacts.

Import PyStr Spec Filter PyStrFacts.
Local Open Scope string_scope.

Lemma filter_true {A} (l : list A) : List.filter (fun _ => true) l = l.
Proof. induction l as [|a l IH]; simpl; congruence. Qed.

Lemma filter_base_filter c t : filter_base c t = List.filter (base_mask c) t.
Proof. apply boolean_index_map. Qed.

Lemma filter_type_filter c fv :
  filter_type c fv
  = List.filter (fun v => negb (type_wanted c) || type_mask c v) fv.
Proof.
  unfold filter_type. destruct (type_wanted c); simpl.
  - apply boolean_index_map.
  - symmetry. apply filter_true.
Qed.

Lemma filter_location_filter c fv :
  filter_location c fv
  = List.filter (fun v => negb (location_wanted c) || location_mask c v) fv.
Proof.
  unfold filter_location. destruct (location_wanted c); simpl.
  - apply boolean_index_map.
  - symmetry. apply filter_true.
Qed.

(** Lines 78-88 keep the rows on which the three masks hold. *)
Lemma before_amenities_filter c t :
  filter_location c (filter_type c (filter_base c t))
  = List.filter (before_amenities c) t.
Proof.
  rewrite filter_location_filter, filter_type_filter, filter_base_filter.
  rewrite !filter_filter_and. apply filter_ext_in_list. intros v _.
  unfold before_amenities. rewrite ?andb_assoc. reflexivity.
Qed.

Lemma all_in_text items x :
  all_in items (Some x) = Ok (forallb (fun item => str_in item x) items).
Proof.
  induction items as [|item items IH]; simpl; [reflexivity|].
  destruct (str_in item x); simpl; [exact IH | reflexivity].
Qed.

Lemma all_in_missing item items : all_in (item :: items) None = Raise TypeError.
Proof. reflexivity. Qed.

Lemma amenity_mask_text c v x :
  Available_Equipments v = Some x ->
  amenity_mask c v = forallb (fun item => str_in item x) (selected_amenities c).
Proof.
  intros H. unfold amenity_mask. rewrite H.
  destruct (selected_amenities c); reflexivity.
Qed.

(** The mask of lines 91-93, when every row holds text. *)
Lemma amenities_mask_text c fv :
  forallb has_equipment fv = true ->
  mapM_result (fun v => all_in (selected_amenities c) (Available_Equipments v)) fv
  = Ok (map (amenity_mask c) fv).
Proof.
  intros H. apply mapM_result_pure. intros v Hv.
  rewrite forallb_forall in H. specialize (H v Hv). unfold has_equipment in H.
  destruct (Available_Equipments v) as [x|] eqn:E; [|discriminate].
  rewrite all_in_text, (amenity_mask_text c v x E). reflexivity.
Qed.

Lemma amenity_mask_nothing_requested c fv :
  selected_amenities c = [] -> List.filter (amenity_mask c) fv = fv.
Proof.
  intros H. rewrite (filter_ext_in_list (amenity_mask c) (fun _ => true)).
  - apply filter_true.
  - intros v _. unfold amenity_mask. rewrite H. reflexivity.
Qed.

Lemma filter_amenities_text c fv :
  equipment_listed c fv = true ->
  filter_amenities c fv = Ok (List.filter (amenity_mask c) fv).
Proof.
  unfold equipment_listed, filter_amenities. intros H.
  destruct (selected_amenities c) as [|item items] eqn:E.
  - rewrite (amenity_mask_nothing_requested c fv E). reflexivity.
  - pose proof (amenities_mask_text c fv H) as Hm. rewrite E in Hm.
    rewrite Hm. simpl. rewrite boolean_index_map. reflexivity.
Qed.

Lemma filter_amenities_missing c fv :
  equipment_listed c fv = false -> exists e, filter_amenities c fv = Raise e.
Proof.
  unfold equipment_listed, filter_amenities. intros H.
  destruct (selected_amenities c) as [|item items]; [discriminate|].
  assert (Hv : exists v, In v fv /\ Available_Equipments v = None).
  { induction fv as [|v fv IH]; simpl in H; [discriminate|].
    apply andb_false_iff in H as [H|H].
    - exists v. split; [left; reflexivity|]. unfold has_equipment in H.
      destruct (Available_Equipments v); [discriminate | reflexivity].
    - destruct (IH H) as (v' & Hin & Hm). exists v'. split; [right|]; auto. }
  destruct Hv as (v & Hin & Hm).
  destruct (mapM_result_Raise
              (fun v => all_in (item :: items) (Available_Equipments v))
              fv v TypeError Hin) as [e ->].
  - rewrite Hm. reflexivity.
  - simpl. eauto.
Qed.

Lemma filter_amenities_Ok c fv r :
  filter_amenities c fv = Ok r -> equipment_listed c fv = true.
Proof.
  intros H. destruct (equipment_listed c fv) eqn:E; [reflexivity|].
  destruct (filter_amenities_missing c fv E) as [e He]. congruence.
Qed.

Lemma filter_selected c t :
  List.filter (amenity_mask c) (List.filter (before_amenities c) t)
  = List.filter (selected c) t.
Proof. apply filter_filter_and. Qed.

(** [filtered_venues] returns exactly when the amenity test can be
    evaluated, and then returns the rows on which every mask holds. *)
Lemma filtered_venues_Ok_iff t c r :
  filtered_venues t c = Ok r <->
  amenities_defined c t = true /\ r = List.filter (selected c) t.
Proof.
  unfold filtered_venues, amenities_defined. rewrite before_amenities_filter.
  split.
  - intros H. pose proof (filter_amenities_Ok _ _ _ H) as Hd.
    rewrite (filter_amenities_text _ _ Hd), filter_selected in H.
    inversion H. auto.
  - intros [Hd ->]. rewrite <- filter_selected.
    apply filter_amenities_text, Hd.
Qed.

Lemma filtered_venues_defined t c :
  amenities_defined c t = true ->
  filtered_venues t c = Ok (List.filter (selected c) t).
Proof. intros H. apply filtered_venues_Ok_iff. auto. Qed.


Lemma equipment_listed_sub c fv fv' :
  (forall v, In v fv' -> In v fv) ->
  equipment_listed c fv = true -> equipment_listed c fv' = true.
Proof.
  unfold equipment_listed. intros Hsub.
  destruct (selected_amenities c); [reflexivity|].
  rewrite !forallb_forall. auto.
Qed.

(** *** The masks, read as conditions *)

Lemma base_mask_iff c v :
  base_mask c v = true <->
  (attendees c <= Capacity v)%Z
  /\ (Budget v <= budget c)%Z
  /\ exists e, Event_Type v = Some e
               /\ substring_nocase (event_label (event_type c)) e.
Proof.
  unfold base_mask, str_contains.
  rewrite !andb_true_iff, !Z.leb_le.
  destruct (Event_Type v) as [e|].
  - rewrite search_nocase_iff. split.
    + intros [[H1 H2] H3]. eauto.
    + intros (H1 & H2 & e' & He & H3). inversion He; subst. auto.
  - split; [intros [_ H]; discriminate | intros (_ & _ & e & He & _); discriminate].
Qed.

Lemma type_filter_iff c v :
  negb (type_wanted c) || type_mask c v = true <->
  (venue_type c <> Any ->
   exists t, Type_ v = Some t
             /\ lower t = lower (venue_label (venue_type c))).
Proof.
  unfold type_wanted, type_mask, text_eq, str_lower.
  assert (Hx : forall label : string,
            match option_map lower (Type_ v) with
            | Some s => String.eqb s (lower label)
            | None => false
            end = true <->
            exists t, Type_ v = Some t /\ lower t = lower label).
  { intros label. destruct (Type_ v) as [t|]; simpl.
    - rewrite String.eqb_eq. split; [eauto|].
      intros (t' & Ht & H). inversion Ht; subst. exact H.
    - split; [discriminate | intros (t' & Ht & _); discriminate]. }
  destruct (venue_type c) eqn:E.
  - change (negb (text_ne (Some (venue_label Indoor)) "Any")) with false.
    rewrite orb_false_l, Hx. split; [auto | intros H; apply H; discriminate].
  - change (negb (text_ne (Some (venue_label Outdoor)) "Any")) with false.
    rewrite orb_false_l, Hx. split; [auto | intros H; apply H; discriminate].
  - split; [intros _ H; contradiction | reflexivity].
Qed.

Lemma location_filter_iff c v :
  negb (location_wanted c) || location_mask c v = true <->
  (selected_location c <> Some "Any" ->
   exists l, selected_location c = Some l /\ Location v = Some l).
Proof.
  unfold location_wanted, location_mask, text_ne, text_eq.
  destruct (selected_location c) as [l|]; simpl.
  - destruct (String.eqb l "Any") eqn:E; simpl.
    + apply String.eqb_eq in E as ->.
      split; [intros _ H; contradiction | reflexivity].
    + apply String.eqb_neq in E.
      assert (Hne : Some l <> Some "Any") by congruence.
      destruct (Location v) as [l'|].
      * rewrite String.eqb_eq. split.
        -- intros -> _. eauto.
        -- intros H. destruct (H Hne) as (l0 & H0 & H1). congruence.
      * split; [discriminate|].
        intros H. destruct (H Hne) as (l0 & _ & H1). discriminate.
  - destruct (Location v); simpl; (split; [discriminate|]);
      intros H; destruct H as (l & Hl & _); discriminate.
Qed.

Lemma amenity_mask_iff c v : amenity_mask c v = true <-> amenity_condition c v.
Proof.
  unfold amenity_mask, amenity_condition.
  destruct (selected_amenities c) as [|item items] eqn:E.
  - split; [intros _ H; contradiction | reflexivity].
  - destruct (Available_Equipments v) as [x|].
    + rewrite forallb_forall. split.
      * intros H _. exists x. split; [reflexivity|].
        intros i Hi. apply str_in_iff. auto.
      * intros H i Hi. destruct H as (x' & Hx & H); [discriminate|].
        inversion Hx; subst. apply str_in_iff. auto.
    + split; [discriminate|].
      intros H. destruct H as (x & Hx & _); discriminate.
Qed.

Lemma before_amenities_iff c v :
  before_amenities c v = true <-> five_conditions c v.
Proof.
  unfold before_amenities, five_conditions.
  rewrite !andb_true_iff, base_mask_iff, type_filter_iff, location_filter_iff.
  tauto.
Qed.

Lemma selected_iff c v :
  selected c v = true <-> five_conditions c v /\ amenity_condition c v.
Proof.
  unfold selected.
  rewrite andb_true_iff, before_amenities_iff, amenity_mask_iff. tauto.
Qed.

(** [filtered_venues] returns a table whenever every row of the table
    holds text in Available Equipments. *)
Lemma filtered_venues_total t c :
  (forall v, In v t -> Available_Equipments v <> None) ->
  filtered_venues t c = Ok (List.filter (selected c) t).
Proof.
  intros H. apply filtered_venues_defined.
  unfold amenities_defined, equipment_listed.
  destruct (selected_amenities c); [reflexivity|].
  apply forallb_forall. intros v Hv. apply filter_In in Hv as [Hv _].
  unfold has_equipment. specialize (H v Hv).
  destruct (Available_Equipments v); [reflexivity | contradiction].
Qed.

End FilterFacts.

(** ** The script *)

Module SessionFacts.

Import Loader Filter Spec Session FilterFacts.

Lemma fresh_unused (h : gmap nat (list venue)) (l : nat) :
  is_Some (h !! l) -> fresh (dom h) <> l.
Proof.
  intros H E. apply elem_of_dom in H. rewrite <- E in H.
  exact (is_fresh (dom h) H).
Qed.

Lemma preserves_refl st : preserves st st.
Proof. split; auto. Qed.

Lemma preserves_trans st1 st2 st3 :
  preserves st1 st2 -> preserves st2 st3 -> preserves st1 st3.
Proof.
  intros [Hc1 H1] [Hc2 H2]. split; [congruence|].
  intros l Hl. rewrite <- (H1 l Hl). apply H2. rewrite (H1 l Hl). exact Hl.
Qed.

Lemma preserves_alloc st st' t :
  csv st' = csv st ->
  heap st' = <[fresh (dom (heap st)) := t]> (heap st) ->
  preserves st st'.
Proof.
  intros Hc Hh. split; [exact Hc|]. intros l Hl. rewrite Hh.
  apply lookup_insert_ne, fresh_unused, Hl.
Qed.

Lemma assign_filtered_stage st0 st fv t :
  at_stage st0 st fv -> at_stage st0 (assign_filtered t st) t.
Proof.
  intros (Hv & Hc & Hp & _). unfold at_stage, assign_filtered, deref. simpl.
  split; [exact Hv|]. split; [exact Hc|]. split.
  - eapply preserves_trans; [exact Hp|].
    apply (preserves_alloc _ _ t); reflexivity.
  - rewrite lookup_insert_eq. reflexivity.
Qed.

Lemma stmt_base_stage c st :
  at_stage st (stmt_base c st) (filter_base c (deref st (venues st))).
Proof.
  unfold stmt_base.
  apply (assign_filtered_stage st st (deref st (filtered_venues st))).
  split; [|split; [|split]]; auto using preserves_refl.
Qed.

Lemma stmt_type_stage c st0 st fv :
  at_stage st0 st fv -> at_stage st0 (stmt_type c st) (filter_type c fv).
Proof.
  intros H. unfold stmt_type, filter_type.
  destruct (type_wanted c); [|exact H].
  destruct H as (Hv & Hc & Hp & <-).
  apply (assign_filtered_stage st0 st (deref st (filtered_venues st))).
  split; [|split; [|split]]; auto.
Qed.

Lemma stmt_location_stage c st0 st fv :
  at_stage st0 st fv -> at_stage st0 (stmt_location c st) (filter_location c fv).
Proof.
  intros H. unfold stmt_location, filter_location.
  destruct (location_wanted c); [|exact H].
  destruct H as (Hv & Hc & Hp & <-).
  apply (assign_filtered_stage st0 st (deref st (filtered_venues st))).
  split; [|split; [|split]]; auto.
Qed.

Lemma stmt_amenities_stage c st0 st fv :
  at_stage st0 st fv ->
  match stmt_amenities c st with
  | Ok st' => exists r, filter_amenities c fv = Ok r /\ at_stage st0 st' r
  | Raise e => filter_amenities c fv = Raise e
  end.
Proof.
  intros H. unfold stmt_amenities, filter_amenities.
  destruct (selected_amenities c) as [|item items]; [eauto|].
  pose proof H as (_ & _ & _ & <-). cbv zeta.
  destruct (mapM_result _ (deref st (filtered_venues st))) as [mask|e];
    simpl; [|reflexivity].
  eexists. split; [reflexivity|]. eapply assign_filtered_stage, H.
Qed.

(** The statements of lines 78-93 compute [filtered_venues] of the table
    that [venues] refers to, and leave that table and every other one
    alone. *)
Lemma run_filter_spec c st :
  match run_filter c st with
  | Ok st' =>
      exists r, Filter.filtered_venues (deref st (venues st)) c = Ok r
                /\ at_stage st st' r
  | Raise e => Filter.filtered_venues (deref st (venues st)) c = Raise e
  end.
Proof.
  unfold run_filter, Filter.filtered_venues.
  apply stmt_amenities_stage, stmt_location_stage, stmt_type_stage,
    stmt_base_stage.
Qed.

Lemma cached_load_data_again st :
  cached_load_data (snd (cached_load_data st)) = cached_load_data st.
Proof.
  unfold cached_load_data. destruct (cache st) as [t|] eqn:E; simpl.
  - rewrite E. reflexivity.
  - destruct (load_data (csv st)) as [t|e] eqn:El; simpl.
    + reflexivity.
    + rewrite E, El. reflexivity.
Qed.

Lemma cached_load_data_state st :
  csv (snd (cached_load_data st)) = csv st
  /\ heap (snd (cached_load_data st)) = heap st
  /\ forall t, fst (cached_load_data st) = Ok t ->
               cache (snd (cached_load_data st)) = Some t.
Proof.
  unfold cached_load_data. destruct (cache st) as [t|] eqn:E; simpl.
  - repeat split; auto. intros t' H. congruence.
  - destruct (load_data (csv st)) as [t|e]; simpl; repeat split; auto.
    + intros t' H. congruence.
    + discriminate.
Qed.

Lemma stmt_load_total st t :
  fst (cached_load_data st) = Ok t ->
  exists st0, stmt_load st = Ok st0
              /\ deref st0 (venues st0) = t
              /\ is_Some (heap st0 !! venues st0)
              /\ cache st0 = Some t
              /\ preserves st st0.
Proof.
  intros Ht. unfold stmt_load.
  pose proof (cached_load_data_state st) as (Hc & Hh & Hcache).
  destruct (cached_load_data st) as [res st']. simpl in *. subst res. simpl.
  eexists. split; [reflexivity|].
  unfold deref, assign_venues. simpl. rewrite lookup_insert_eq.
  split; [reflexivity|]. split; [eauto|]. split; [auto|].
  split; [exact Hc|]. simpl.
  intros l Hl. rewrite <- Hh in Hl. rewrite <- Hh.
  apply lookup_insert_ne, fresh_unused, Hl.
Qed.

(** Lines 78-93 on a state in which [venues] refers to the table [t]. *)
Lemma run_filter_defined c st0 t :
  deref st0 (venues st0) = t ->
  is_Some (heap st0 !! venues st0) ->
  amenities_defined c t = true ->
  exists st1, run_filter c st0 = Ok st1
              /\ deref st1 (venues st1) = t
              /\ deref st1 (filtered_venues st1) = List.filter (selected c) t
              /\ cache st1 = cache st0
              /\ preserves st0 st1.
Proof.
  intros Ht Hsome Hdef. pose proof (run_filter_spec c st0) as Hspec.
  rewrite Ht, (filtered_venues_defined t c Hdef) in Hspec.
  destruct (run_filter c st0) as [st1|e]; [|discriminate].
  destruct Hspec as (r & Hr & Hv & Hc & Hp & Hf). inversion Hr; subst r.
  exists st1. split; [reflexivity|]. split; [|auto].
  rewrite <- Ht. unfold deref. rewrite Hv.
  destruct Hp as [_ Hp]. rewrite (Hp _ Hsome). reflexivity.
Qed.

End SessionFacts.

(* ================================================================== *)
(** * The statements about the loader and the filter *)
(* ================================================================== *)

Import PyStr Regex Loader Filter Spec Examples.
Import RegexFacts PyStrFacts CapacityFacts LoaderFacts FilterFacts SessionFacts.

Local Open Scope string_scope.

(** ** C2: what [parse_capacity] makes of a Capacity cell *)



(** ** C3: the rows of the table [load_data] returns *)




(** ** C6: a Budget that cannot be converted *)




(** ** C1: the rows [filtered_venues] selects *)

(** C1, as the code has it.  Whenever the amenity test can be evaluated,
    [filtered_venues] returns a table, and a row is in it if and only if
    it is a row of the table given, its Capacity is at least the number
    of attendees, its Budget is at most the budget, its Event Type
    contains the chosen event type without regard to case, its Type
    equals the chosen venue type without regard to case unless that is
    "Any", its Location equals the chosen location unless that is "Any",
    and, when amenities are requested, its Available Equipments contains
    each of them. *)
Theorem filtered_venues_rows (t : list venue) (c : criteria)
  (Hdef : amenities_defined c t = true) :
  exists r, filtered_venues t c = Ok r
            /\ forall v, In v r <->
                         In v t /\ five_conditions c v /\ amenity_condition c v.
Proof.
  exists (List.filter (selected c) t).
  split; [apply filtered_venues_defined, Hdef|].
  intros v. rewrite filter_In, selected_iff. tauto.
Qed.

Lemma filtered_venues_rows_witness :
  amenities_defined (wedding ["Mic"]) [hall; untagged] = true
  /\ exists r, filtered_venues [hall; untagged] (wedding ["Mic"]) = Ok r
               /\ forall v, In v r <->
                            In v [hall; untagged]
                            /\ five_conditions (wedding ["Mic"]) v
                            /\ amenity_condition (wedding ["Mic"]) v.
Proof.
  split; [reflexivity|].
  exact (filtered_venues_rows [hall; untagged] (wedding ["Mic"]) eq_refl).
Defined.

(** C1 as stated fails: the hall meets the five conditions on Capacity,
    Budget, Event Type, Type and Location, and is not in the result when
    a projector is asked for. *)
Lemma five_conditions_not_sufficient :
  exists r, filtered_venues [hall] (wedding ["Mic"; "Projector"]) = Ok r
            /\ ~ (In hall r <->
                  In hall [hall]
                  /\ five_conditions (wedding ["Mic"; "Projector"]) hall).
Proof.
  exists []. split; [reflexivity|]. intros [_ H]. apply H. split.
  - left. reflexivity.
  - apply before_amenities_iff. reflexivity.
Qed.

(** ** C4: the result is a subsequence of the table *)

(** C4.  Whenever the amenity test can be evaluated, [filtered_venues]
    returns the rows of the table on which all the masks hold, each as it
    stands in the table, once for each place it has there, and in the
    order of the table: the result is a subsequence of the table. *)
Theorem filtered_venues_subsequence (t : list venue) (c : criteria)
  (Hdef : amenities_defined c t = true) :
  exists r, filtered_venues t c = Ok r
            /\ r = List.filter (selected c) t
            /\ sublist r t.
Proof.
  exists (List.filter (selected c) t).
  split; [apply filtered_venues_defined, Hdef|].
  split; [reflexivity | apply filter_sublist_of].
Qed.

Lemma filtered_venues_subsequence_witness :
  amenities_defined (wedding ["WiFi"]) [untagged; hall; untagged; hall] = true
  /\ exists r,
       filtered_venues [untagged; hall; untagged; hall] (wedding ["WiFi"]) = Ok r
       /\ r = List.filter (selected (wedding ["WiFi"]))
                          [untagged; hall; untagged; hall]
       /\ sublist r [untagged; hall; untagged; hall].
Proof.
  split; [reflexivity|].
  exact (filtered_venues_subsequence [untagged; hall; untagged; hall]
           (wedding ["WiFi"]) eq_refl).
Defined.

(** ** C5: the amenity test *)


(** The test looks at the text, not at the tags in it: "Mic" occurs in
    "Microphone". *)
Example mic_in_microphone :
  all_in ["Mic"] (Some "Microphone,WiFi") = Ok true
  /\ all_in ["Mic"; "Projector"] (Some "Mic,WiFi") = Ok false.
Proof. split; reflexivity. Qed.


(** ** C7: asking for one more amenity *)





(** ** C8: filtering twice *)

(** C8.  Whenever the amenity test can be evaluated, [filtered_venues]
    returns a result, and applied to that result with the same choices it
    returns the same result. *)
Theorem filter_idempotent (t : list venue) (c : criteria)
  (Hdef : amenities_defined c t = true) :
  exists r, filtered_venues t c = Ok r /\ filtered_venues r c = Ok r.
Proof.
  exists (List.filter (selected c) t).
  split; [apply filtered_venues_defined, Hdef|].
  apply filtered_venues_Ok_iff. split.
  - unfold amenities_defined in *.
    eapply equipment_listed_sub; [|exact Hdef].
    intros v Hv. apply filter_In in Hv as [Hv Hb].
    apply filter_In in Hv as [Hv _]. apply filter_In. auto.
  - rewrite filter_filter_and. apply filter_ext_in_list. intros v _.
    destruct (selected c v); reflexivity.
Qed.

Lemma filter_idempotent_witness :
  amenities_defined (wedding ["WiFi"]) [untagged; hall] = true
  /\ exists r, filtered_venues [untagged; hall] (wedding ["WiFi"]) = Ok r
               /\ filtered_venues r (wedding ["WiFi"]) = Ok r.
Proof.
  split; [reflexivity|].
  exact (filter_idempotent [untagged; hall] (wedding ["WiFi"]) eq_refl).
Defined.

(** ** C10: a row without an Event Type *)



(** ** C9: running the script again *)

(** C9.  Let the loader give the table [t], from the cache or else as
    [load_data] of the file, and let the amenity test be one that can be
    evaluated.  Then a run of the script returns; afterwards [venues]
    refers to [t] and [filtered_venues] to the rows of [t] that the
    filters select; the filters write to new tables only, so that every
    table that existed before the run is as it was.  A second run from the
    state the first one left returns as well, with the same table and the
    same result, and again leaves every table as it was. *)
Theorem two_runs_identical (c : criteria) (st : Session.state) (t : list venue)
  (Hload : fst (Session.cached_load_data st) = Ok t)
  (Hdef : amenities_defined c t = true) :
  (Session.cache st = None -> load_data (Session.csv st) = Ok t)
  /\ exists st1,
       Session.run_script c st = Ok st1
       /\ Session.deref st1 (Session.venues st1) = t
       /\ filtered_venues t c
          = Ok (Session.deref st1 (Session.filtered_venues st1))
       /\ Session.preserves st st1
       /\ exists st2,
            Session.run_script c st1 = Ok st2
            /\ Session.deref st2 (Session.venues st2) = t
            /\ Session.deref st2 (Session.filtered_venues st2)
               = Session.deref st1 (Session.filtered_venues st1)
            /\ Session.preserves st1 st2.
Proof.
  split.
  { intros Hnone. unfold Session.cached_load_data in Hload.
    rewrite Hnone in Hload.
    destruct (load_data (Session.csv st)); simpl in Hload; congruence. }
  destruct (stmt_load_total st t Hload) as (st0 & Hl0 & Hv0 & Hs0 & Hc0 & Hp0).
  destruct (run_filter_defined c st0 t Hv0 Hs0 Hdef)
    as (st1 & Hr1 & Hv1 & Hf1 & Hc1 & Hp1).
  exists st1. unfold Session.run_script. rewrite Hl0. simpl.
  split; [exact Hr1|]. split; [exact Hv1|].
  split; [rewrite Hf1; apply filtered_venues_defined, Hdef|].
  split; [exact (preserves_trans _ _ _ Hp0 Hp1)|].
  assert (Hload1 : fst (Session.cached_load_data st1) = Ok t).
  { unfold Session.cached_load_data. rewrite Hc1, Hc0. reflexivity. }
  destruct (stmt_load_total st1 t Hload1) as (st2 & Hl2 & Hv2 & Hs2 & Hc2 & Hp2).
  destruct (run_filter_defined c st2 t Hv2 Hs2 Hdef)
    as (st3 & Hr3 & Hv3 & Hf3 & Hc3 & Hp3).
  exists st3. rewrite Hl2. simpl.
  split; [exact Hr3|]. split; [exact Hv3|].
  split; [congruence | exact (preserves_trans _ _ _ Hp2 Hp3)].
Qed.

Lemma two_runs_identical_witness :
  fst (Session.cached_load_data session_start) = Ok [hall]
  /\ amenities_defined (wedding ["Mic"]) [hall] = true
  /\ exists st1,
       Session.run_script (wedding ["Mic"]) session_start = Ok st1
       /\ Session.deref st1 (Session.venues st1) = [hall]
       /\ filtered_venues [hall] (wedding ["Mic"])
          = Ok (Session.deref st1 (Session.filtered_venues st1))
       /\ Session.preserves session_start st1
       /\ exists st2,
            Session.run_script (wedding ["Mic"]) st1 = Ok st2
            /\ Session.deref st2 (Session.venues st2) = [hall]
            /\ Session.deref st2 (Session.filtered_venues st2)
               = Session.deref st1 (Session.filtered_venues st1)
            /\ Session.preserves st1 st2.
Proof.
  split; [reflexivity|]. split; [reflexivity|].
  exact (proj2 (two_runs_identical (wedding ["Mic"]) session_start [hall]
                  eq_refl eq_refl)).
Defined.

(* ================================================================== *)
(** * Further properties of the loader *)
(* ================================================================== *)

Module SignFacts.

Lemma not_capacity_text_sign (c : ascii) (a : string) (n : Z) :
  is_digit c = false -> ~ capacity_text (String c a) n.
Proof.
  intros Hc H.
  assert (Hfirst : forall b tail, is_number b ->
            String c a = (b ++ tail)%string -> False).
  { intros b tail [Hne Hb] E. destruct b as [|d b]; [contradiction|].
    simpl in Hb, E. inversion E; subst.
    apply andb_true_iff in Hb as [Hd _]. congruence. }
  inversion H as [b Hb Eb En|b b' Hb Hb' Eb En|b Hb Eb En|b b' Hb Hb' Eb En].
  - apply (Hfirst (String c a) "" Hb). rewrite append_nil_r. reflexivity.
  - exact (Hfirst b _ Hb (eq_sym Eb)).
  - exact (Hfirst b _ Hb (eq_sym Eb)).
  - exact (Hfirst b _ Hb (eq_sym Eb)).
Qed.

Lemma rstrip_nonempty_digits (c : ascii) (a : string) :
  is_number a -> PyStr.rstrip (String c a) = String c a.
Proof.
  intros [Hne Ha]. simpl. rewrite (rstrip_digits a Ha).
  destruct a; [contradiction | reflexivity].
Qed.

Lemma int_literal_minus (a : string) :
  is_number a -> int_literal (String "-" a) = Some (- number a)%Z.
Proof.
  intros H. unfold int_literal, PyStr.strip.
  change (PyStr.lstrip (String "-" a)) with (String "-" a).
  rewrite (rstrip_nonempty_digits "-" a H), (int_digits_number a H).
  reflexivity.
Qed.

Lemma int_literal_plus (a : string) :
  is_number a -> int_literal (String "+" a) = Some (number a).
Proof.
  intros H. unfold int_literal, PyStr.strip.
  change (PyStr.lstrip (String "+" a)) with (String "+" a).
  rewrite (rstrip_nonempty_digits "+" a H), (int_digits_number a H).
  reflexivity.
Qed.

Lemma parse_capacity_unmatched (s : string) :
  (forall n, ~ capacity_text s n) ->
  parse_capacity (CStr s) = Ok (int_literal s).
Proof.
  intros H. rewrite parse_capacity_otherwise.
  - rewrite try_int_Ok. simpl. unfold PyStr.py_int.
    destruct (int_literal s); reflexivity.
  - intros s' n E. inversion E; subst. apply H.
Qed.

End SignFacts.

Import SignFacts.


(** X2.  A sign in front of a number is accepted by the direct integer
    parse: [-a] becomes the negative of [a], and [+a] becomes [a]. *)
Theorem parse_capacity_signed (a : string) (Ha : is_number a) :
  parse_capacity (CStr ("-" ++ a)) = Ok (Some (- number a)%Z)
  /\ parse_capacity (CStr ("+" ++ a)) = Ok (Some (number a)).
Proof.
  split.
  - rewrite parse_capacity_unmatched.
    + change ("-" ++ a) with (String "-" a).
      rewrite (int_literal_minus a Ha). reflexivity.
    + intros n. apply not_capacity_text_sign. reflexivity.
  - rewrite parse_capacity_unmatched.
    + change ("+" ++ a) with (String "+" a).
      rewrite (int_literal_plus a Ha). reflexivity.
    + intros n. apply not_capacity_text_sign. reflexivity.
Qed.

Lemma parse_capacity_signed_witness :
  is_number "250"
  /\ parse_capacity (CStr "-250") = Ok (Some (-250)%Z)
  /\ parse_capacity (CStr "+250") = Ok (Some 250%Z).
Proof.
  assert (Ha : is_number "250") by (split; [discriminate | reflexivity]).
  split; [exact Ha|]. exact (parse_capacity_signed "250" Ha).
Defined.


(** X4.  When the Capacity of no row parses, [load_data] returns the
    empty table and raises nothing, whatever the Budget cells hold. *)
Theorem load_data_nothing_kept (csv : list raw_row)
  (Hnone : forall r, In r csv -> parse_capacity (raw_Capacity r) = Ok None) :
  load_data csv = Ok [].
Proof.
  assert (Hk : List.filter kept csv = []).
  { clear -Hnone. induction csv as [|r csv IH]; [reflexivity|]. simpl.
    unfold kept at 1. rewrite (Hnone r) by (left; reflexivity).
    apply IH. intros r' Hr'. apply Hnone. right. exact Hr'. }
  destruct (load_data_total csv) as [t Ht].
  { intros r Hr Hkept. unfold kept in Hkept. rewrite (Hnone r Hr) in Hkept.
    discriminate. }
  destruct (load_data_rows csv t Ht) as [Hrows _]. rewrite Hk in Hrows.
  inversion Hrows; subst. exact Ht.
Qed.

Lemma load_data_nothing_kept_witness :
  (forall r, In r [raw_unreadable; raw_unreadable] ->
             parse_capacity (raw_Capacity r) = Ok None)
  /\ load_data [raw_unreadable; raw_unreadable] = Ok [].
Proof.
  assert (H : forall r, In r [raw_unreadable; raw_unreadable] ->
                        parse_capacity (raw_Capacity r) = Ok None).
  { intros r [<-|[<-|[]]]; reflexivity. }
  split; [exact H|].
  exact (load_data_nothing_kept [raw_unreadable; raw_unreadable] H).
Defined.

(** ** Numbers written out and read back *)

Module TextFacts.

Local Open Scope string_scope.

Lemma all_digits_string_of_uint d :
  all_digits (NilEmpty.string_of_uint d) = true.
Proof. induction d; simpl; auto. Qed.

Lemma decimal_string_of_uint d : forall seen,
  decimal seen (NilEmpty.string_of_uint d)
  = (DecimalPos.Unsigned.of_lu (Decimal.rev d)
     + seen * 10 ^ DecimalPos.Unsigned.usize d)%N.
Proof.
  induction d; intros seen;
    [simpl; rewrite N.mul_1_r; reflexivity | ..];
    simpl NilEmpty.string_of_uint; simpl decimal;
    unfold Decimal.rev at 1; simpl Decimal.revapp;
    match goal with
    | |- context [Decimal.revapp d (?f Decimal.Nil)] =>
        rewrite (DecimalPos.Unsigned.of_lu_revapp d (f Decimal.Nil))
    end;
    rewrite IHd;
    simpl DecimalPos.Unsigned.of_lu; simpl DecimalPos.Unsigned.usize;
    rewrite N.pow_succ_r';
    match goal with
    | |- context [digit_value ?c] =>
        let v := eval vm_compute in (digit_value c) in
        change (digit_value c) with v
    end;
    ring.
Qed.

Lemma number_string_of_uint d :
  number (NilEmpty.string_of_uint d) = Z.of_N (N.of_uint d).
Proof.
  unfold number. rewrite decimal_string_of_uint, N.mul_0_l, N.add_0_r.
  unfold N.of_uint. rewrite DecimalPos.Unsigned.of_uint_alt. reflexivity.
Qed.

Lemma string_of_uint_nonempty d :
  d <> Decimal.Nil -> NilEmpty.string_of_uint d <> "".
Proof. destruct d; simpl; [contradiction | discriminate ..]. Qed.

(** The digits of a positive number. *)
Lemma pos_digits p :
  is_number (NilEmpty.string_of_uint (Pos.to_uint p))
  /\ number (NilEmpty.string_of_uint (Pos.to_uint p)) = Z.pos p.
Proof.
  split; [split|].
  - apply string_of_uint_nonempty, DecimalPos.Unsigned.to_uint_nonnil.
  - apply all_digits_string_of_uint.
  - rewrite number_string_of_uint. unfold N.of_uint.
    rewrite DecimalPos.Unsigned.of_to. reflexivity.
Qed.

Lemma string_of_uint_pos p :
  NilZero.string_of_uint (Pos.to_uint p)
  = NilEmpty.string_of_uint (Pos.to_uint p).
Proof.
  unfold NilZero.string_of_uint.
  pose proof (DecimalPos.Unsigned.to_uint_nonnil p) as H.
  destruct (Pos.to_uint p); [contradiction | reflexivity ..].
Qed.

(** [str(z)] of a number that is not negative is a digit string that
    stands for [z]. *)
Lemma str_of_int_nonneg z :
  (0 <= z)%Z ->
  is_number (PyText.str_of_int z) /\ number (PyText.str_of_int z) = z.
Proof.
  intros Hz. unfold PyText.str_of_int. destruct z as [|p|p]; [| |lia].
  - split; [split; [discriminate | reflexivity] | reflexivity].
  - simpl. rewrite string_of_uint_pos. apply pos_digits.
Qed.

Lemma str_of_int_neg p :
  exists a, PyText.str_of_int (Z.neg p) = String "-" a
            /\ is_number a /\ number a = Z.pos p.
Proof.
  exists (NilEmpty.string_of_uint (Pos.to_uint p)).
  unfold PyText.str_of_int. simpl. rewrite string_of_uint_pos.
  split; [reflexivity | apply pos_digits].
Qed.

(** [int(str(z))] is [z]. *)
Lemma int_literal_str_of_int z : int_literal (PyText.str_of_int z) = Some z.
Proof.
  destruct (Z.neg_nonneg_cases z) as [Hneg|Hpos].
  - destruct z as [|p|p]; try lia.
    destruct (str_of_int_neg p) as (a & -> & Ha & Hn).
    rewrite (int_literal_minus a Ha), Hn. reflexivity.
  - destruct (str_of_int_nonneg z Hpos) as [Ha Hn].
    rewrite (int_literal_number _ Ha), Hn. reflexivity.
Qed.

(** *** Removing a pattern *)

Lemma remove_from_other_char p0 pat' c s :
  c <> p0 ->
  remove_from (String p0 pat') 0 (String c s)
  = String c (remove_from (String p0 pat') 0 s).
Proof.
  intros Hne. simpl. destruct (Ascii.ascii_dec p0 c); [congruence|reflexivity].
Qed.

Lemma remove_from_digits p0 pat' g tail :
  is_digit p0 = false -> all_digits g = true ->
  remove_from (String p0 pat') 0 (g ++ tail)
  = g ++ remove_from (String p0 pat') 0 tail.
Proof.
  intros Hp. induction g as [|c g IH]; intros Hg; [reflexivity|].
  simpl in Hg. apply andb_true_iff in Hg as [Hc Hg].
  change (String c g ++ tail) with (String c (g ++ tail)).
  rewrite remove_from_other_char by congruence.
  rewrite (IH Hg). reflexivity.
Qed.

Lemma remove_all_digits p0 pat' g :
  is_digit p0 = false -> all_digits g = true ->
  remove_all (String p0 pat') g = g.
Proof.
  intros Hp Hg. unfold remove_all. rewrite <- (append_nil_r g) at 1.
  rewrite (remove_from_digits p0 pat' g "" Hp Hg). apply append_nil_r.
Qed.

Lemma prefix_nil s : String.prefix "" s = true.
Proof. destruct s; reflexivity. Qed.

Lemma remove_from_separator c tail :
  remove_from (String c "") 0 (String c tail)
  = remove_from (String c "") 0 tail.
Proof.
  simpl. destruct (Ascii.ascii_dec c c); [|congruence].
  rewrite prefix_nil. reflexivity.
Qed.

Lemma remove_rupee_join groups :
  Forall (fun g => all_digits g = true) groups ->
  remove_all "₹" (PyText.join "," groups) = PyText.join "," groups.
Proof.
  induction 1 as [|g rest Hg _ IH]; [reflexivity|].
  destruct rest as [|g' rest].
  - apply remove_all_digits; [reflexivity | exact Hg].
  - unfold remove_all in *.
    change (PyText.join "," (g :: g' :: rest))
      with (g ++ String "," (PyText.join "," (g' :: rest))).
    rewrite remove_from_digits; [|reflexivity | exact Hg].
    rewrite remove_from_other_char by discriminate.
    rewrite IH. reflexivity.
Qed.

Lemma remove_comma_join groups :
  Forall (fun g => all_digits g = true) groups ->
  remove_all "," (PyText.join "," groups) = PyText.join "" groups.
Proof.
  induction 1 as [|g rest Hg _ IH]; [reflexivity|].
  destruct rest as [|g' rest].
  - apply remove_all_digits; [reflexivity | exact Hg].
  - unfold remove_all in *.
    change (PyText.join "," (g :: g' :: rest))
      with (g ++ String "," (PyText.join "," (g' :: rest))).
    change (PyText.join "" (g :: g' :: rest))
      with (g ++ PyText.join "" (g' :: rest)).
    rewrite remove_from_digits; [|reflexivity | exact Hg].
    rewrite remove_from_separator, IH. reflexivity.
Qed.

Lemma all_digits_app a b :
  all_digits (a ++ b) = all_digits a && all_digits b.
Proof.
  induction a as [|c a IH]; simpl; [reflexivity|].
  rewrite IH. apply andb_assoc.
Qed.

Lemma all_digits_join groups :
  Forall (fun g => all_digits g = true) groups ->
  all_digits (PyText.join "" groups) = true.
Proof.
  induction 1 as [|g rest Hg _ IH]; [reflexivity|].
  destruct rest as [|g' rest]; [exact Hg|].
  change (PyText.join "" (g :: g' :: rest))
    with (g ++ PyText.join "" (g' :: rest)).
  rewrite all_digits_app, Hg, IH. reflexivity.
Qed.

Lemma remove_rupee_front s : remove_all "₹" ("₹" ++ s) = remove_all "₹" s.
Proof. unfold remove_all. simpl. rewrite prefix_nil. reflexivity. Qed.

End TextFacts.

Import TextFacts.

(** X5.  The Budget conversion reads a number whose digits are grouped by
    commas, with or without the currency sign in front: the commas and
    the sign are dropped wherever they stand, and the digits that remain
    are read as one number. *)
Theorem budget_grouping (groups : list string)
  (Hdigits : Forall (fun g => all_digits g = true) groups)
  (Hsome : PyText.join "" groups <> "")
  (Hrange : in_int64 (number (PyText.join "" groups)) = true) :
  parse_budget (CStr ("₹" ++ PyText.join "," groups))
  = Ok (number (PyText.join "" groups))
  /\ parse_budget (CStr (PyText.join "," groups))
     = Ok (number (PyText.join "" groups)).
Proof.
  assert (Hnum : is_number (PyText.join "" groups))
    by (split; [exact Hsome | apply all_digits_join, Hdigits]).
  assert (Hread : forall s,
            remove_all "," (remove_all "₹" s) = PyText.join "" groups ->
            parse_budget (CStr s) = Ok (number (PyText.join "" groups))).
  { intros s Hs. unfold parse_budget, replace_budget, budget_astype_int.
    rewrite Hs. unfold Loader.py_int. rewrite (py_int_number _ Hnum).
    simpl. unfold to_int64. rewrite Hrange. reflexivity. }
  split; apply Hread.
  - rewrite remove_rupee_front, (remove_rupee_join groups Hdigits).
    apply (remove_comma_join groups Hdigits).
  - rewrite (remove_rupee_join groups Hdigits).
    apply (remove_comma_join groups Hdigits).
Qed.

Lemma budget_grouping_witness :
  Forall (fun g => all_digits g = true) ["1"; "250"; "000"]
  /\ PyText.join "" ["1"; "250"; "000"] <> ""
  /\ in_int64 (number (PyText.join "" ["1"; "250"; "000"])) = true
  /\ parse_budget (CStr "₹1,250,000") = Ok 1250000%Z.
Proof.
  assert (Hd : Forall (fun g => all_digits g = true) ["1"; "250"; "000"])
    by (repeat constructor).
  assert (Hs : PyText.join "" ["1"; "250"; "000"] <> "") by discriminate.
  split; [exact Hd|]. split; [exact Hs|]. split; [reflexivity|].
  exact (proj1 (budget_grouping ["1"; "250"; "000"] Hd Hs eq_refl)).
Defined.

(* ================================================================== *)
(** * Further properties of the filter *)
(* ================================================================== *)

Module RaiseFacts.





End RaiseFacts.

Import RaiseFacts.


(** X7.  The filters on Capacity, Budget and Event Type, on Type and on
    Location can be applied in any order, also with different choices for
    each: any two of them commute. *)
Theorem filter_stages_commute (c1 c2 : criteria) (fv : list venue) :
  filter_type c1 (filter_location c2 fv) = filter_location c2 (filter_type c1 fv)
  /\ filter_base c1 (filter_type c2 fv) = filter_type c2 (filter_base c1 fv)
  /\ filter_base c1 (filter_location c2 fv)
     = filter_location c2 (filter_base c1 fv).
Proof.
  rewrite !filter_type_filter, !filter_location_filter, !filter_base_filter.
  rewrite !filter_filter_and.
  repeat split; apply filter_ext_in_list; intros v _; apply andb_comm.
Qed.

Lemma selected_with_stricter_sliders c n b v :
  (attendees c <= n)%Z -> (b <= budget c)%Z ->
  selected (Widgets.with_budget (Widgets.with_attendees c n) b) v = true ->
  selected c v = true.
Proof.
  intros Hn Hb. unfold selected, before_amenities, base_mask.
  change (amenity_mask (Widgets.with_budget (Widgets.with_attendees c n) b) v)
    with (amenity_mask c v).
  simpl. rewrite !andb_true_iff, !Z.leb_le.
  intros [[[[[H1 H2] H3] H4] H5] H6]. repeat split; auto; lia.
Qed.

Lemma before_amenities_with_stricter_sliders c n b v :
  (attendees c <= n)%Z -> (b <= budget c)%Z ->
  before_amenities (Widgets.with_budget (Widgets.with_attendees c n) b) v = true ->
  before_amenities c v = true.
Proof.
  intros Hn Hb. unfold before_amenities, base_mask.
  simpl. rewrite !andb_true_iff, !Z.leb_le.
  intros [[[[H1 H2] H3] H4] H5]. repeat split; auto; lia.
Qed.

(** X8.  Moving the attendees slider up or the budget slider down never
    adds a venue: whenever the filter can be evaluated at the old
    positions, it returns at the old and at the new ones, and the new
    result is a subsequence of the old one. *)
Theorem stricter_sliders_fewer_venues (t : list venue) (c : criteria) (n b : Z)
  (Hattendees : (attendees c <= n)%Z)
  (Hbudget : (b <= budget c)%Z)
  (Hdef : amenities_defined c t = true) :
  exists r r',
    filtered_venues t c = Ok r
    /\ filtered_venues t (Widgets.with_budget (Widgets.with_attendees c n) b)
       = Ok r'
    /\ sublist r' r.
Proof.
  set (c' := Widgets.with_budget (Widgets.with_attendees c n) b).
  exists (List.filter (selected c) t), (List.filter (selected c') t).
  split; [apply filtered_venues_defined, Hdef|].
  split.
  - apply filtered_venues_defined. unfold amenities_defined in *.
    change (equipment_listed c' ?l) with (equipment_listed c l).
    eapply equipment_listed_sub; [|exact Hdef].
    intros v Hv. apply filter_In in Hv as [Hv Hb']. apply filter_In.
    split; [exact Hv|].
    exact (before_amenities_with_stricter_sliders c n b v Hattendees Hbudget Hb').
  - assert (E : List.filter (selected c') t
                = List.filter (selected c') (List.filter (selected c) t)).
    { rewrite filter_filter_and. apply filter_ext_in_list. intros v _.
      destruct (selected c' v) eqn:E1; [|apply eq_sym, andb_false_r].
      rewrite (selected_with_stricter_sliders c n b v Hattendees Hbudget E1).
      reflexivity. }
    rewrite E. apply filter_sublist_of.
Qed.

Lemma stricter_sliders_fewer_venues_witness :
  (attendees (wedding ["Mic"]) <= 600)%Z
  /\ (20000 <= budget (wedding ["Mic"]))%Z
  /\ amenities_defined (wedding ["Mic"]) [hall; untagged] = true
  /\ exists r r',
       filtered_venues [hall; untagged] (wedding ["Mic"]) = Ok r
       /\ filtered_venues [hall; untagged]
            (Widgets.with_budget (Widgets.with_attendees (wedding ["Mic"]) 600)
                                 20000)
          = Ok r'
       /\ sublist r' r.
Proof.
  assert (Ha : (attendees (wedding ["Mic"]) <= 600)%Z) by (simpl; lia).
  assert (Hb : (20000 <= budget (wedding ["Mic"]))%Z) by (simpl; lia).
  split; [exact Ha|]. split; [exact Hb|]. split; [reflexivity|].
  exact (stricter_sliders_fewer_venues [hall; untagged] (wedding ["Mic"])
           600 20000 Ha Hb eq_refl).
Defined.

(* ================================================================== *)
(** * Properties of the widgets *)
(* ================================================================== *)

Module WidgetFacts.

Import Widgets.

Lemma same_text_eq x y : same_text x y = true <-> x = y.
Proof.
  destruct x as [s|], y as [t|]; simpl.
  - rewrite String.eqb_eq. split; congruence.
  - split; discriminate.
  - split; discriminate.
  - split; reflexivity.
Qed.

Lemma seen_In x seen : existsb (same_text x) seen = true <-> In x seen.
Proof.
  rewrite existsb_exists. split.
  - intros (y & Hy & E). apply same_text_eq in E. congruence.
  - intros H. exists x. split; [exact H | apply same_text_eq; reflexivity].
Qed.

Lemma seen_not_In x seen : existsb (same_text x) seen = false <-> ~ In x seen.
Proof.
  rewrite <- seen_In. destruct (existsb (same_text x) seen); split; congruence.
Qed.

Lemma unique_from_In seen column x :
  In x (unique_from seen column) <-> In x column /\ ~ In x seen.
Proof.
  revert seen. induction column as [|y column IH]; intros seen; simpl.
  - tauto.
  - destruct (existsb (same_text y) seen) eqn:E.
    + apply seen_In in E. rewrite IH. split.
      * tauto.
      * intros [[->|H] Hs]; [contradiction | tauto].
    + apply seen_not_In in E. simpl. rewrite IH. simpl. split.
      * intros [->|[H Hs]]; [tauto|]. split; [tauto|]. intros Hx. apply Hs. auto.
      * intros [[->|H] Hs]; [tauto|].
        destruct (same_text y x) eqn:Exy.
        -- apply same_text_eq in Exy. auto.
        -- right. split; [exact H|]. intros [Hyx|Hx]; [|contradiction].
           subst. rewrite (proj2 (same_text_eq x x) eq_refl) in Exy.
           discriminate.
Qed.

Lemma unique_from_NoDup seen column : NoDup (unique_from seen column).
Proof.
  revert seen. induction column as [|y column IH]; intros seen; simpl.
  - constructor.
  - destruct (existsb (same_text y) seen); [apply IH|].
    apply NoDup_cons_2; [|apply IH].
    rewrite list_elem_of_In, unique_from_In. simpl. tauto.
Qed.

Lemma unique_from_sublist seen column : sublist (unique_from seen column) column.
Proof.
  revert seen. induction column as [|y column IH]; intros seen; simpl.
  - constructor.
  - destruct (existsb (same_text y) seen).
    + apply sublist_cons, IH.
    + apply sublist_skip, IH.
Qed.

Lemma unique_from_seen_ext seen1 seen2 column :
  (forall z, In z seen1 <-> In z seen2) ->
  unique_from seen1 column = unique_from seen2 column.
Proof.
  revert seen1 seen2. induction column as [|y column IH]; intros s1 s2 H; simpl.
  - reflexivity.
  - assert (E : existsb (same_text y) s1 = existsb (same_text y) s2).
    { destruct (existsb (same_text y) s1) eqn:E1.
      - symmetry. apply seen_In, H, seen_In, E1.
      - symmetry. apply seen_not_In. intros Hy.
        apply seen_not_In in E1. apply E1, H, Hy. }
    rewrite E. destruct (existsb (same_text y) s2).
    + apply IH, H.
    + f_equal. apply IH. intros z. simpl. rewrite H. tauto.
Qed.

Lemma filter_other_id x l :
  ~ In x l -> List.filter (fun y => negb (same_text x y)) l = l.
Proof.
  induction l as [|y l IH]; simpl; intros H; [reflexivity|].
  destruct (same_text x y) eqn:E; simpl.
  - apply same_text_eq in E. subst. exfalso. apply H. left. reflexivity.
  - rewrite IH by tauto. reflexivity.
Qed.

Lemma unique_from_cons seen y column :
  unique_from seen (y :: column)
  = if existsb (same_text y) seen then unique_from seen column
    else y :: unique_from (y :: seen) column.
Proof. reflexivity. Qed.

Lemma unique_from_seen_cons x seen column :
  unique_from (x :: seen) column
  = List.filter (fun y => negb (same_text x y)) (unique_from seen column).
Proof.
  revert seen. induction column as [|y column IH]; intros seen; [reflexivity|].
  rewrite !unique_from_cons.
  change (existsb (same_text y) (x :: seen))
    with (same_text y x || existsb (same_text y) seen).
  destruct (existsb (same_text y) seen) eqn:Es.
  - rewrite orb_true_r. apply IH.
  - rewrite orb_false_r. destruct (same_text y x) eqn:Eyx.
    + apply same_text_eq in Eyx. subst y. simpl.
      rewrite (proj2 (same_text_eq x x) eq_refl). simpl.
      symmetry. apply filter_other_id.
      rewrite unique_from_In. simpl. tauto.
    + simpl. assert (Exy : same_text x y = false).
      { destruct (same_text x y) eqn:E; [|reflexivity].
        apply same_text_eq in E. subst.
        rewrite (proj2 (same_text_eq y y) eq_refl) in Eyx. discriminate. }
      rewrite Exy. simpl. f_equal. rewrite <- IH.
      apply unique_from_seen_ext. intros z. simpl. tauto.
Qed.


End WidgetFacts.

Import WidgetFacts.

(** X9.  The location select box offers "Any" first and then every
    Location of the table once, in the order of first appearance, the
    missing value among them when a row has none: the values offered
    after "Any" are those of the column, without repetition and in the
    order of the column, and a value that heads the column heads them. *)
Theorem location_options_spec (venues : list venue) :
  exists offered,
    Widgets.location_options venues = Some "Any"%string :: offered
    /\ NoDup offered
    /\ (forall x, In x offered <-> exists v, In v venues /\ Location v = x)
    /\ sublist offered (map Location venues)
    /\ (forall v venues',
          venues = v :: venues' ->
          offered
          = Location v
            :: List.filter (fun y => negb (Widgets.same_text (Location v) y))
                 (Widgets.unique (map Location venues'))).
Proof.
  exists (Widgets.unique (map Location venues)).
  split; [reflexivity|]. unfold Widgets.unique.
  split; [apply unique_from_NoDup|].
  split; [|split].
  - intros x. rewrite unique_from_In, in_map_iff. simpl. split.
    + intros [(v & E & Hv) _]. eauto.
    + intros (v & Hv & E). split; [eauto | tauto].
  - apply unique_from_sublist.
  - intros v venues' ->. simpl. f_equal. apply unique_from_seen_cons.
Qed.





(** X12.  Whatever the sliders are set to, a venue for fewer than 10
    guests or with a Budget above 200000 is never recommended: every row
    of a result has a Capacity of at least 10 and a Budget of at most
    200000. *)
Theorem out_of_slider_range (t : list venue) (c : criteria) (r : list venue)
  (v : venue)
  (Hattendees : Widgets.attendees_slider (attendees c) = true)
  (Hbudget : Widgets.budget_slider (budget c) = true)
  (Hresult : filtered_venues t c = Ok r)
  (Hrow : In v r) :
  (10 <= Capacity v)%Z /\ (Budget v <= 200000)%Z.
Proof.
  apply filtered_venues_Ok_iff in Hresult as [_ ->].
  apply filter_In in Hrow as [_ Hsel].
  apply selected_iff in Hsel as [(Hcap & Hbud & _) _].
  unfold Widgets.attendees_slider, Widgets.budget_slider,
    Widgets.slider_value in *.
  apply andb_true_iff in Hattendees as [Ha _].
  apply andb_true_iff in Ha as [Ha1 Ha2].
  apply andb_true_iff in Hbudget as [Hb _].
  apply andb_true_iff in Hb as [Hb1 Hb2].
  apply Z.leb_le in Ha1. apply Z.leb_le in Hb2. lia.
Qed.

Lemma out_of_slider_range_witness :
  Widgets.attendees_slider (attendees (wedding ["Mic"%string])) = true
  /\ Widgets.budget_slider (budget (wedding ["Mic"%string])) = true
  /\ filtered_venues [hall; untagged] (wedding ["Mic"%string]) = Ok [hall]
  /\ In hall [hall]
  /\ (10 <= Capacity hall)%Z /\ (Budget hall <= 200000)%Z.
Proof.
  assert (Hin : In hall [hall]) by (left; reflexivity).
  split; [reflexivity|]. split; [reflexivity|]. split; [reflexivity|].
  split; [exact Hin|].
  exact (out_of_slider_range [hall; untagged] (wedding ["Mic"%string]) [hall]
           hall eq_refl eq_refl eq_refl Hin).
Defined.

(* ================================================================== *)
(** * Properties of the page and of the event plan *)
(* ================================================================== *)

(** X13.  Whenever the filter can be evaluated, the page shows the
    warning exactly when no row of the table meets the conditions of all
    the filters; otherwise it shows the rows that meet them, in the order
    of the table, each with its first six columns. *)
Theorem warning_iff_no_match (t : list venue) (c : criteria)
  (Hdef : amenities_defined c t = true) :
  exists r,
    filtered_venues t c = Ok r
    /\ ((exists w, Page.render r = Page.Warning w) <->
        forall v, In v t -> ~ (five_conditions c v /\ amenity_condition c v))
    /\ (forall msg table,
          Page.render r = Page.Success msg table ->
          table = map Page.show_columns (List.filter (selected c) t)).
Proof.
  exists (List.filter (selected c) t).
  split; [apply filtered_venues_defined, Hdef|]. split.
  - split.
    + intros [w Hw] v Hv Hsel. apply selected_iff in Hsel.
      assert (Hin : In v (List.filter (selected c) t)) by (apply filter_In; auto).
      destruct (List.filter (selected c) t); [destruct Hin | discriminate].
    + intros Hnone. destruct (List.filter (selected c) t) as [|v r] eqn:E.
      * eexists. reflexivity.
      * assert (Hin : In v (List.filter (selected c) t))
          by (rewrite E; left; reflexivity).
        apply filter_In in Hin as [Hin Hsel]. apply selected_iff in Hsel.
        destruct (Hnone v Hin Hsel).
  - intros msg table H.
    destruct (List.filter (selected c) t); [discriminate|].
    inversion H. reflexivity.
Qed.

Lemma warning_iff_no_match_witness :
  amenities_defined (wedding ["Projector"%string]) [hall; untagged] = true
  /\ exists r,
       filtered_venues [hall; untagged] (wedding ["Projector"%string]) = Ok r
       /\ ((exists w, Page.render r = Page.Warning w) <->
           forall v, In v [hall; untagged] ->
                     ~ (five_conditions (wedding ["Projector"%string]) v
                        /\ amenity_condition (wedding ["Projector"%string]) v)).
Proof.
  split; [reflexivity|].
  destruct (warning_iff_no_match [hall; untagged]
              (wedding ["Projector"%string]) eq_refl) as (r & Hr & Hw & _).
  exists r. split; [exact Hr | exact Hw].
Defined.

(** X14.  The number in the success box is the number of rows in the
    table shown below it, written so that [int()] reads it back; it is
    the number of rows of the result and at least 1. *)
Theorem success_count (fv : list venue) (msg : string)
  (table : list Page.shown_row)
  (Hpage : Page.render fv = Page.Success msg table) :
  exists n : string,
    msg = ("✅ Found " ++ n ++ " matching venues!")%string
    /\ int_literal n = Some (Z.of_nat (length table))
    /\ length table = length fv
    /\ (1 <= length table)%nat.
Proof.
  destruct fv as [|v fv]; [discriminate|].
  unfold Page.render in Hpage. injection Hpage as <- <-.
  exists (PyText.str_of_int (Z.of_nat (length (v :: fv)))).
  split; [reflexivity|].
  change (Page.show_columns v :: map Page.show_columns fv)
    with (map Page.show_columns (v :: fv)).
  rewrite List.length_map.
  split; [apply int_literal_str_of_int|]. split; [reflexivity | simpl; lia].
Qed.

Lemma success_count_witness :
  Page.render [hall; hall; untagged]
  = Page.Success "✅ Found 3 matching venues!"
      (map Page.show_columns [hall; hall; untagged])
  /\ exists n : string,
       "✅ Found 3 matching venues!"%string
       = ("✅ Found " ++ n ++ " matching venues!")%string
       /\ int_literal n
          = Some (Z.of_nat (length (map Page.show_columns [hall; hall; untagged])))
       /\ length (map Page.show_columns [hall; hall; untagged])
          = length [hall; hall; untagged]
       /\ (1 <= length (map Page.show_columns [hall; hall; untagged]))%nat.
Proof.
  split; [reflexivity|].
  exact (success_count [hall; hall; untagged] _ _ eq_refl).
Defined.

Module PlanFacts.

Local Open Scope string_scope.

Lemma remove_all_str_of_int p0 pat' z :
  is_digit p0 = false -> p0 <> "-"%char ->
  remove_all (String p0 pat') (PyText.str_of_int z) = PyText.str_of_int z.
Proof.
  intros Hd Hm. destruct (Z.neg_nonneg_cases z) as [Hneg|Hpos].
  - destruct z as [|p|p]; try lia.
    destruct (str_of_int_neg p) as (a & -> & [_ Ha] & _).
    unfold remove_all. rewrite remove_from_other_char by congruence.
    f_equal. apply (remove_all_digits p0 pat' a Hd Ha).
  - destruct (str_of_int_nonneg z Hpos) as [[_ Ha] _].
    apply (remove_all_digits p0 pat' _ Hd Ha).
Qed.

(** Two amenities of the list followed by anything: equal texts mean the
    same amenity and the same rest. *)
Lemma amenity_prefix_unique a b t1 t2 :
  In a amenities_list -> In b amenities_list ->
  a ++ t1 = b ++ t2 -> a = b /\ t1 = t2.
Proof.
  unfold amenities_list. simpl. intros Ha Hb E.
  repeat (destruct Ha as [<-|Ha]; [|]); try contradiction;
    repeat (destruct Hb as [<-|Hb]; [|]); try contradiction;
    simpl in E; split; congruence.
Qed.

Lemma amenity_not_None a t :
  In a amenities_list -> a ++ t <> "None".
Proof.
  unfold amenities_list. simpl. intros Ha.
  repeat (destruct Ha as [<-|Ha]; [discriminate|]). contradiction.
Qed.

Lemma join_cons sep a rest :
  PyText.join sep (a :: rest)
  = a ++ match rest with [] => "" | _ :: _ => sep ++ PyText.join sep rest end.
Proof. destruct rest; simpl; [rewrite append_nil_r|]; reflexivity. Qed.

Lemma append_inj_l (a x y : string) : a ++ x = a ++ y -> x = y.
Proof. induction a as [|c a IH]; simpl; intros E; [exact E|]. apply IH. congruence. Qed.

Lemma join_injective l1 : forall l2,
  incl l1 amenities_list -> incl l2 amenities_list ->
  l1 <> [] -> l2 <> [] ->
  PyText.join ", " l1 = PyText.join ", " l2 -> l1 = l2.
Proof.
  induction l1 as [|a r1 IH]; intros l2 H1 H2 Hn1 Hn2 E; [contradiction|].
  destruct l2 as [|b r2]; [contradiction|].
  rewrite !join_cons in E.
  apply amenity_prefix_unique in E as [<- E];
    [|apply H1; left; reflexivity | apply H2; left; reflexivity].
  f_equal.
  assert (Hr1 : incl r1 amenities_list) by (intros x Hx; apply H1; right; exact Hx).
  assert (Hr2 : incl r2 amenities_list) by (intros x Hx; apply H2; right; exact Hx).
  destruct r1 as [|a1 r1], r2 as [|b1 r2]; try discriminate E; [reflexivity|].
  apply IH; auto; try discriminate.
  exact (append_inj_l ", " _ _ E).
Qed.

End PlanFacts.

Import PlanFacts.

(** X15.  The Budget written into the event plan reads back: the Budget
    conversion of the loader turns the entry into the budget chosen. *)
Theorem plan_budget_reads_back (c : criteria)
  (Hrange : in_int64 (budget c) = true) :
  Plan.getitem (Plan.event_summary c) "Budget"
  = Some (CStr (Plan.budget_entry (budget c)))
  /\ parse_budget (CStr (Plan.budget_entry (budget c))) = Ok (budget c).
Proof.
  split; [reflexivity|].
  unfold parse_budget, replace_budget, budget_astype_int, Plan.budget_entry.
  rewrite remove_rupee_front.
  rewrite remove_all_str_of_int; [|reflexivity | discriminate].
  rewrite remove_all_str_of_int; [|reflexivity | discriminate].
  unfold Loader.py_int, PyStr.py_int. rewrite int_literal_str_of_int.
  simpl. unfold to_int64. rewrite Hrange. reflexivity.
Qed.

Lemma plan_budget_reads_back_witness :
  in_int64 (budget (wedding [])) = true
  /\ Plan.getitem (Plan.event_summary (wedding [])) "Budget"
     = Some (CStr "₹25000")
  /\ parse_budget (CStr "₹25000") = Ok 25000%Z.
Proof.
  split; [reflexivity|].
  exact (plan_budget_reads_back (wedding []) eq_refl).
Defined.

(** X16.  For amenities chosen from the list of the multiselect, the
    entry of the event plan is "None" exactly when nothing is chosen, and
    two choices with the same entry are the same choice, in the same
    order: the plan tells which amenities were asked for. *)
Theorem amenities_entry_injective (items1 items2 : list string)
  (H1 : incl items1 amenities_list)
  (H2 : incl items2 amenities_list) :
  (Plan.amenities_entry items1 = "None"%string <-> items1 = [])
  /\ (Plan.amenities_entry items1 = Plan.amenities_entry items2 ->
      items1 = items2).
Proof.
  assert (Hnone : forall items, incl items amenities_list ->
            Plan.amenities_entry items = "None"%string -> items = []).
  { intros [|a rest] Hincl E; [reflexivity|]. exfalso.
    unfold Plan.amenities_entry in E. rewrite join_cons in E.
    apply (amenity_not_None a _ (Hincl a ltac:(left; reflexivity)) E). }
  split.
  - split; [apply Hnone, H1 | intros ->; reflexivity].
  - intros E. destruct items1 as [|a1 r1].
    + symmetry. apply Hnone; [exact H2 | symmetry; exact E].
    + destruct items2 as [|a2 r2].
      * apply Hnone; [exact H1 | exact E].
      * apply join_injective; auto; discriminate.
Qed.

Lemma amenities_entry_injective_witness :
  incl ["WiFi"; "Mic"]%string amenities_list
  /\ incl ["Mic"; "WiFi"]%string amenities_list
  /\ (Plan.amenities_entry ["WiFi"; "Mic"]%string = "None"%string <->
      ["WiFi"; "Mic"]%string = [])
  /\ Plan.amenities_entry ["WiFi"; "Mic"]%string = "WiFi, Mic"%string.
Proof.
  assert (H1 : incl ["WiFi"; "Mic"]%string amenities_list).
  { intros x [<-|[<-|[]]]; unfold amenities_list; simpl; tauto. }
  assert (H2 : incl ["Mic"; "WiFi"]%string amenities_list).
  { intros x [<-|[<-|[]]]; unfold amenities_list; simpl; tauto. }
  split; [exact H1|]. split; [exact H2|].
  split; [|reflexivity].
  exact (proj1 (amenities_entry_injective ["WiFi"; "Mic"]%string
                  ["Mic"; "WiFi"]%string H1 H2)).
Defined.

(* ================================================================== *)
(** * Properties of the column names and of the cache *)
(* ================================================================== *)

Module StripFacts.

Local Open Scope string_scope.












End StripFacts.

Import StripFacts.







(** X20.  The amenity test reads the text of Available Equipments, so
    text added in front of it or behind it never loses a match: a field
    that contains every requested amenity still does when it is made
    longer at either end. *)
Theorem longer_equipment_still_matches (items : list string)
  (x pre post : string)
  (Hmatch : all_in items (Some x) = Ok true) :
  all_in items (Some (pre ++ x ++ post)%string) = Ok true.
Proof.
  rewrite all_in_text in *. inversion Hmatch as [Hall]. rewrite Hall.
  f_equal. rewrite forallb_forall in *. intros item Hitem.
  apply str_in_iff. apply Hall, str_in_iff in Hitem as (p & q & ->).
  exists (pre ++ p)%string, (q ++ post)%string.
  rewrite !append_assoc. reflexivity.
Qed.

Lemma longer_equipment_still_matches_witness :
  all_in ["Mic"; "WiFi"]%string (Some "Mic,WiFi"%string) = Ok true
  /\ all_in ["Mic"; "WiFi"]%string (Some "Stage,Mic,WiFi,Parking"%string)
     = Ok true.
Proof.
  split; [reflexivity|].
  exact (longer_equipment_still_matches ["Mic"; "WiFi"]%string
           "Mic,WiFi" "Stage," ",Parking" eq_refl).
Defined.
